(** * AirBnBDataHandler: a shallow embedding of the listing pipeline

    The handler of [AirBnBDataHandler.js] keeps a working set of listings
    and a list of pinned ids, and offers [filter], [computeStats],
    [computeHostRanking], [pinListing], [getPinnedListings], [getData] and
    the CSV encoder [convertToCSV] used by [exportResults].

    The first part of the file embeds the JavaScript primitives the handler
    relies on (string coercions, [parseInt], [parseFloat], IEEE 754 double
    arithmetic, own-property order of ordinary objects and the properties
    they inherit from [Object.prototype], the stable
    [Array.prototype.sort]); the second part embeds the handler itself; the
    third part gives the vocabulary of the specification, and the last
    parts state and prove the properties. *)

From Stdlib Require Import List String Ascii ZArith NArith Bool Lia.
From Stdlib Require Import Permutation Sorted.
From Stdlib Require Import Floats.SpecFloat.
Import ListNotations.

Local Open Scope Z_scope.

(* ================================================================== *)
(** * Part I: JavaScript primitives *)
(* ================================================================== *)

Module JS.

(** ** Strings

    A JavaScript string is modelled as a [string], one [ascii] per code
    unit; code units above 255 are outside the model. *)

Definition dquote : ascii := "034"%char.
Definition comma : ascii := ","%char.
Definition newline : ascii := "010"%char.

Definition str1 (c : ascii) : string := String c EmptyString.

(** [s.includes(pat)] *)
Fixpoint includes (s pat : string) : bool :=
  String.prefix pat s ||
  match s with
  | EmptyString => false
  | String _ s' => includes s' pat
  end.

(** The global replacement of [quoteField]: every quote character is
    replaced by two quote characters. *)
Fixpoint replaceQuotes (s : string) : string :=
  match s with
  | EmptyString => EmptyString
  | String c s' =>
      if Ascii.eqb c dquote
      then String dquote (String dquote (replaceQuotes s'))
      else String c (replaceQuotes s')
  end.

(** [arr.join(sep)] on an array of strings. *)
Definition join (sep : string) (l : list string) : string :=
  String.concat sep l.

(** ** Field values

    The values a listing field can hold: the strings produced by the CSV
    parser, [undefined] for a field that is absent, and [null]. *)

Inductive Value : Type :=
| VUndefined
| VNull
| VString (s : string).

Definition ToString (v : Value) : string :=
  match v with
  | VUndefined => "undefined"
  | VNull => "null"
  | VString s => s
  end.

(** Truthiness, as tested by [x && ...] and [!x]. *)
Definition ToBoolean (v : Value) : bool :=
  match v with
  | VString (String _ _) => true
  | _ => false
  end.

(** SameValueZero, the comparison of [Array.prototype.includes]. *)
Definition Value_eqb (a b : Value) : bool :=
  match a, b with
  | VUndefined, VUndefined => true
  | VNull, VNull => true
  | VString s, VString t => String.eqb s t
  | _, _ => false
  end.

(** [arr.includes(v)] *)
Definition arr_includes (arr : list Value) (v : Value) : bool :=
  existsb (Value_eqb v) arr.

(** ** Numbers

    A JavaScript Number is an IEEE 754 binary64 value; the operations are
    those of the standard library's executable specification. *)

Definition number : Type := spec_float.

Definition prec : Z := 53.
Definition emax : Z := 1024.

Definition NaN : number := S754_nan.
Definition zero : number := S754_zero false.

Definition num_ToBoolean (x : number) : bool :=
  match x with
  | S754_zero _ | S754_nan => false
  | _ => true
  end.

(** [x || y] on numbers *)
Definition num_or (x y : number) : number :=
  if num_ToBoolean x then x else y.

Definition num_add : number -> number -> number := SFadd prec emax.
Definition num_div : number -> number -> number := SFdiv prec emax.

(** [x >= y] and [x <= y]; both are false when an operand is NaN. *)
Definition num_ge (x y : number) : bool := SFleb y x.
Definition num_le (x y : number) : bool := SFleb x y.

(** The Number value for an integer: round to nearest, ties to even,
    overflowing to an infinity. *)
Definition num_of_Z (z : Z) : number := binary_normalize prec emax z 0 false.

(** The Number value for the decimal [(-1)^neg * m * 10^e], [m >= 0]:
    the integer [m * 10^e] rounded, or the correctly rounded quotient of
    [m] by [10^(-e)]. *)
Definition num_of_decimal (neg : bool) (m e : Z) : number :=
  match m with
  | Zpos p =>
      if 0 <=? e
      then binary_round prec emax neg (p * Z.to_pos (10 ^ e)) 0
      else SFdiv prec emax (S754_finite neg p 0)
                           (S754_finite false (Z.to_pos (10 ^ (- e))) 0)
  | _ => S754_zero neg
  end.

(** ** Scanning numeric text *)

Definition isWhiteSpace (c : ascii) : bool :=
  let n := Z.of_nat (nat_of_ascii c) in
  ((9 <=? n) && (n <=? 13)) || (n =? 32) || (n =? 160).

Fixpoint trimStart (s : string) : string :=
  match s with
  | EmptyString => EmptyString
  | String c s' => if isWhiteSpace c then trimStart s' else s
  end.

Definition digitValue (c : ascii) : option Z :=
  let n := Z.of_nat (nat_of_ascii c) in
  if (48 <=? n) && (n <=? 57) then Some (n - 48)
  else if (97 <=? n) && (n <=? 122) then Some (n - 87)
  else if (65 <=? n) && (n <=? 90) then Some (n - 55)
  else None.

Definition radixDigit (R : Z) (c : ascii) : option Z :=
  match digitValue c with
  | Some d => if d <? R then Some d else None
  | None => None
  end.

(** The longest prefix of radix-[R] digits, and what follows it. *)
Fixpoint digitsPrefix (R : Z) (s : string) : list Z * string :=
  match s with
  | EmptyString => ([], EmptyString)
  | String c s' =>
      match radixDigit R c with
      | Some d => let (ds, rest) := digitsPrefix R s' in (d :: ds, rest)
      | None => ([], s)
      end
  end.

Definition mathValue (R : Z) (ds : list Z) : Z :=
  fold_left (fun a d => a * R + d) ds 0.

(** An optional sign: whether it is a minus, and the text after it. *)
Definition takeSign (s : string) : bool * string :=
  match s with
  | String c r =>
      if Ascii.eqb c "-"%char then (true, r)
      else if Ascii.eqb c "+"%char then (false, r)
      else (false, s)
  | EmptyString => (false, s)
  end.

(** [parseInt(v)] with no radix argument.  The value of the digits is
    rounded exactly, as V8 does (the language allows an approximation
    after the 20th significant digit). *)
Definition parseInt (v : Value) : number :=
  let S := trimStart (ToString v) in
  let (neg, S1) := takeSign S in
  let (R, S2) :=
    match S1 with
    | String c0 (String c1 r) =>
        if Ascii.eqb c0 "0"%char
           && (Ascii.eqb c1 "x"%char || Ascii.eqb c1 "X"%char)
        then (16, r) else (10, S1)
    | _ => (10, S1)
    end in
  match fst (digitsPrefix R S2) with
  | [] => NaN
  | ds =>
      let mathInt := mathValue R ds in
      if mathInt =? 0 then S754_zero neg
      else num_of_Z (if neg then - mathInt else mathInt)
  end.

(** The value of an exponent part [e[+-]ddd] at the head of [s]; 0 when
    there is none (the literal then ends before [s]). *)
Definition exponentPart (s : string) : Z :=
  match s with
  | String c r =>
      if Ascii.eqb c "e"%char || Ascii.eqb c "E"%char then
        let (neg, r') := takeSign r in
        match fst (digitsPrefix 10 r') with
        | [] => 0
        | ds => if neg then - mathValue 10 ds else mathValue 10 ds
        end
      else 0
  | EmptyString => 0
  end.

(** [parseFloat(v)]: the longest prefix that is a decimal literal. *)
Definition parseFloat (v : Value) : number :=
  let trimmed := trimStart (ToString v) in
  let (neg, u) := takeSign trimmed in
  if String.prefix "Infinity" u then S754_infinity neg
  else
    let (ip, r1) := digitsPrefix 10 u in
    let (fp, r2) :=
      match r1 with
      | String c r =>
          if Ascii.eqb c "."%char then digitsPrefix 10 r else ([], r1)
      | EmptyString => ([], r1)
      end in
    match (ip ++ fp)%list with
    | [] => NaN
    | ds =>
        num_of_decimal neg (mathValue 10 ds)
                       (exponentPart r2 - Z.of_nat (List.length fp))
    end.

(** ** Ordinary objects used as counting tables

    [computeHostRanking] counts in an object literal, a table whose keys
    are the host ids.  Three features of ordinary objects are visible in
    its result: the order in which [Object.entries] lists own keys (array
    indices first, in ascending numeric order, then the other keys in
    creation order), the properties inherited from [Object.prototype] that
    a read of an absent key can find, and the inherited [__proto__]
    accessor, whose setter discards a value that is not an object. *)

(** An array index is a canonical decimal numeral below [2^32 - 1]. *)
Definition arrayIndex (k : string) : option Z :=
  match k with
  | EmptyString => None
  | String c r =>
      if Ascii.eqb c "0"%char then
        match r with
        | EmptyString => Some 0
        | String _ _ => None
        end
      else
        match digitsPrefix 10 k with
        | (ds, EmptyString) =>
            let n := mathValue 10 ds in
            if n <? 2 ^ 32 - 1 then Some n else None
        | (_, String _ _) => None
        end
  end.

(** What a cell of the table holds after [(acc[host] || 0) + 1]: a count,
    or a text when the addition was a string concatenation.  Counts are
    bounded by the length of an array, far below [2^53], so their
    arithmetic on doubles is exact and they are kept as [nat]. *)
Inductive Cell : Type :=
| CNum (n : nat)
| CText (s : string).

(** The own properties of a table, in [Object.entries] order. *)
Definition Obj : Type := list (string * Cell).

Definition emptyObject : Obj := [].

Fixpoint own_lookup (o : Obj) (k : string) : option Cell :=
  match o with
  | [] => None
  | (k', c) :: o' => if String.eqb k' k then Some c else own_lookup o' k
  end.

Fixpoint own_update (o : Obj) (k : string) (c : Cell) : Obj :=
  match o with
  | [] => []
  | (k', c') :: o' =>
      if String.eqb k' k then (k', c) :: o' else (k', c') :: own_update o' k c
  end.

(** A new array-index key goes before the first key that is a larger
    array index or is not an array index. *)
Fixpoint insert_index (i : Z) (k : string) (c : Cell) (o : Obj) : Obj :=
  match o with
  | [] => [(k, c)]
  | (k', c') :: o' =>
      match arrayIndex k' with
      | Some j =>
          if j <? i then (k', c') :: insert_index i k c o'
          else (k, c) :: o
      | None => (k, c) :: o
      end
  end.

(** Creation of an own property. *)
Definition own_define (o : Obj) (k : string) (c : Cell) : Obj :=
  match arrayIndex k with
  | Some i => insert_index i k c o
  | None => (o ++ [(k, c)])%list
  end.

(** The function-valued properties of [Object.prototype]. *)
Definition prototypeMethods : list string :=
  [ "constructor"; "__defineGetter__"; "__defineSetter__"; "hasOwnProperty";
    "__lookupGetter__"; "__lookupSetter__"; "isPrototypeOf";
    "propertyIsEnumerable"; "toString"; "valueOf"; "toLocaleString" ]%string.

Definition isPrototypeMethod (k : string) : bool :=
  existsb (String.eqb k) prototypeMethods.

Definition isProtoAccessor (k : string) : bool := String.eqb k "__proto__".

(** The keys a read of a fresh object literal finds without an own
    property. *)
Definition inheritedKey (k : string) : bool :=
  isProtoAccessor k || isPrototypeMethod k.

(** The result of the read [acc[k]]. *)
Inductive Read : Type :=
| RUndefined
| ROwn (c : Cell)
| RFunction (k : string)
| RObjectPrototype.

Definition obj_get (o : Obj) (k : string) : Read :=
  match own_lookup o k with
  | Some c => ROwn c
  | None =>
      if isProtoAccessor k then RObjectPrototype
      else if isPrototypeMethod k then RFunction k
      else RUndefined
  end.

(** The text of a built-in function, in the form V8 prints it. *)
Definition functionSource (k : string) : string :=
  let name := if String.eqb k "constructor" then "Object"%string else k in
  ("function " ++ name ++ "() { [native code] }")%string.

(** ** Reads of a record

    A record is an ordinary object as well.  The read [row[k]], with a key
    [k] that is only known when the program runs, yields the own property
    [k] when the record has one, and otherwise what [Object.prototype]
    supplies for [k]: one of its functions, or the prototype object itself
    through the [__proto__] accessor. *)
Inductive Member : Type :=
| MValue (v : Value)
| MFunction (k : string)
| MObjectPrototype.

(** [String(m)] *)
Definition Member_ToString (m : Member) : string :=
  match m with
  | MValue v => ToString v
  | MFunction k => functionSource k
  | MObjectPrototype => "[object Object]"
  end.

(** [m == null] *)
Definition isNullish (m : Member) : bool :=
  match m with
  | MValue VUndefined | MValue VNull => true
  | _ => false
  end.

(** [(r || 0) + 1] *)
Definition or0_plus1 (r : Read) : Cell :=
  match r with
  | RUndefined => CNum 1
  | ROwn (CNum n) => CNum (n + 1)
  | ROwn (CText EmptyString) => CNum 1
  | ROwn (CText s) => CText (s ++ "1")
  | RFunction k => CText (functionSource k ++ "1")
  | RObjectPrototype => CText "[object Object]1"
  end.

(** The assignment [acc[k] = c]: an own property is overwritten; the
    inherited [__proto__] setter is called otherwise for that key, and does
    nothing with a number or a string; any other key is created. *)
Definition obj_set (o : Obj) (k : string) (c : Cell) : Obj :=
  match own_lookup o k with
  | Some _ => own_update o k c
  | None => if isProtoAccessor k then o else own_define o k c
  end.

Definition Object_entries (o : Obj) : list (string * Cell) := o.

(** ToNumber of a cell, [None] standing for NaN: the texts the counting
    step stores all begin with a word or a bracket, none is empty or a
    numeric literal. *)
Definition Cell_ToNumber (c : Cell) : option Z :=
  match c with
  | CNum n => Some (Z.of_nat n)
  | CText _ => None
  end.

(** [x - y] on cells *)
Definition Cell_sub (x y : Cell) : option Z :=
  match Cell_ToNumber x, Cell_ToNumber y with
  | Some a, Some b => Some (a - b)
  | _, _ => None
  end.

(** ** Array.prototype.sort

    The sort is stable; a comparator result of NaN counts as 0.  For a
    comparator that is a consistent ordering the result is determined by
    the specification, and is the one computed here.  For any other
    comparator the language leaves the order to the implementation; the
    properties below state an order only for counts that are numbers, on
    which the comparator of [computeHostRanking] is consistent. *)

Section Sort.
Context {A : Type}.
Variable comparefn : A -> A -> option Z.

Definition sortCompare (a b : A) : Z :=
  match comparefn a b with
  | Some v => v
  | None => 0
  end.

Fixpoint sort_insert (x : A) (l : list A) : list A :=
  match l with
  | [] => [x]
  | y :: l' =>
      if 0 <? sortCompare x y then y :: sort_insert x l' else x :: l
  end.

Definition sort (l : list A) : list A := fold_right sort_insert [] l.
End Sort.

(** ** Text entered at a prompt

    The primitives the front end applies to an answer: [trim], [split]
    on a one-character separator, the conversion [Number(s)] and the
    global [isNaN]. *)

Fixpoint trimEnd (s : string) : string :=
  match s with
  | EmptyString => EmptyString
  | String c s' =>
      match trimEnd s' with
      | EmptyString =>
          if isWhiteSpace c then EmptyString else String c EmptyString
      | String c' t => String c (String c' t)
      end
  end.

(** [s.trim()] *)
Definition trim (s : string) : string := trimEnd (trimStart s).

(** [s.split(sep)] for a separator of one character: the pieces between
    the separators, at least one piece. *)
Fixpoint split (sep : ascii) (s : string) : list string :=
  match s with
  | EmptyString => [EmptyString]
  | String c s' =>
      match split sep s' with
      | [] => [str1 c]
      | piece :: pieces =>
          if Ascii.eqb c sep then EmptyString :: piece :: pieces
          else String c piece :: pieces
      end
  end.

(** The exponent part at the head of [s] and the text after it; when
    there is none the exponent is 0 and the text is [s]. *)
Definition exponentRest (s : string) : Z * string :=
  match s with
  | String c r =>
      if Ascii.eqb c "e"%char || Ascii.eqb c "E"%char then
        let (neg, r') := takeSign r in
        match digitsPrefix 10 r' with
        | ([], _) => (0, s)
        | (ds, rest) =>
            (if neg then - mathValue 10 ds else mathValue 10 ds, rest)
        end
      else (0, s)
  | EmptyString => (0, s)
  end.

(** A literal with a radix prefix, [0x], [0o] or [0b] in either case:
    its value, NaN when the digits are missing or followed by something;
    [None] when the text has no radix prefix. *)
Definition nonDecimalLiteral (t : string) : option number :=
  match t with
  | String c0 (String c1 r) =>
      if Ascii.eqb c0 "0"%char then
        let radix :=
          if Ascii.eqb c1 "x"%char || Ascii.eqb c1 "X"%char then Some 16
          else if Ascii.eqb c1 "o"%char || Ascii.eqb c1 "O"%char then Some 8
          else if Ascii.eqb c1 "b"%char || Ascii.eqb c1 "B"%char then Some 2
          else None in
        match radix with
        | Some R =>
            match digitsPrefix R r with
            | ([], _) => Some NaN
            | (ds, EmptyString) => Some (num_of_Z (mathValue R ds))
            | (_, String _ _) => Some NaN
            end
        | None => None
        end
      else None
  | _ => None
  end.

(** A signed decimal literal that is the whole of [t], NaN otherwise. *)
Definition decimalLiteral (t : string) : number :=
  let (neg, u) := takeSign t in
  if String.eqb u "Infinity" then S754_infinity neg
  else
    let (ip, r1) := digitsPrefix 10 u in
    let (fp, r2) :=
      match r1 with
      | String c r =>
          if Ascii.eqb c "."%char then digitsPrefix 10 r else ([], r1)
      | EmptyString => ([], r1)
      end in
    match (ip ++ fp)%list with
    | [] => NaN
    | ds =>
        let (ex, rest) := exponentRest r2 in
        match rest with
        | EmptyString =>
            num_of_decimal neg (mathValue 10 ds) (ex - Z.of_nat (List.length fp))
        | String _ _ => NaN
        end
    end.

(** [Number(s)]: white space is trimmed at both ends, the empty text is
    0, and the rest has to be one numeric literal. *)
Definition StringToNumber (s : string) : number :=
  match trim s with
  | EmptyString => zero
  | t =>
      match nonDecimalLiteral t with
      | Some x => x
      | None => decimalLiteral t
      end
  end.

(** The global [isNaN] on a number. *)
Definition num_isNaN (x : number) : bool :=
  match x with
  | S754_nan => true
  | _ => false
  end.

End JS.

(* ================================================================== *)
(** * Part II: the handler *)
(* ================================================================== *)

Import JS.

(** A listing is the object the CSV parser builds for a row: its own
    properties, in the order [Object.keys] lists them. *)
Definition Listing : Type := list (string * Value).

(** [listing.k] for a field name [k] written in the program: [id],
    [price], [bedrooms], [review_scores_rating] and [host_id].  None of
    them is a property of [Object.prototype], so the read yields the own
    property, or [undefined] when the listing has none. *)
Fixpoint get (o : Listing) (k : string) : Value :=
  match o with
  | [] => VUndefined
  | (k', v) :: o' => if String.eqb k' k then v else get o' k
  end.

(** The own property [k] of a record, if it has one. *)
Fixpoint getOwn (o : Listing) (k : string) : option Value :=
  match o with
  | [] => None
  | (k', v) :: o' => if String.eqb k' k then Some v else getOwn o' k
  end.

(** [row[k]] for a key [k] computed when the program runs: the own
    property, or else the property inherited from [Object.prototype]. *)
Definition getMember (o : Listing) (k : string) : Member :=
  match getOwn o k with
  | Some v => MValue v
  | None =>
      if isProtoAccessor k then MObjectPrototype
      else if isPrototypeMethod k then MFunction k
      else MValue VUndefined
  end.

(** [Object.keys(o)] *)
Definition Object_keys (o : Listing) : list string := map fst o.

(** ** convertToCSV *)

Definition quoteField (field : Member) : string :=
  if isNullish field then EmptyString
  else
    let fieldStr := Member_ToString field in
    if includes fieldStr (str1 comma)
       || includes fieldStr (str1 dquote)
       || includes fieldStr (str1 newline)
    then String dquote (replaceQuotes fieldStr ++ str1 dquote)
    else fieldStr.

Definition convertToCSV (data : list Listing) : string :=
  match data with
  | [] => EmptyString
  | first :: _ =>
      let headers := Object_keys first in
      let headerLine := join (str1 comma) headers in
      let rows :=
        map (fun row =>
               join (str1 comma)
                    (map (fun header => quoteField (getMember row header))
                         headers))
            data in
      join (str1 newline) (headerLine :: rows)
  end.

(** ** The handler state *)

Record Stats : Type := mkStats {
  count : nat;
  avgPricePerBedroom : number
}.

Record HostEntry : Type := mkHostEntry {
  host : string;
  host_count : Cell
}.

(** The closure variables [data] and [pinnedIds], and the properties
    [stats] and [hostRanking] of the handler object ([None] while they
    have not been assigned). *)
Record Handler : Type := mkHandler {
  data : list Listing;
  pinnedIds : list Value;
  stats : option Stats;
  hostRanking : option (list HostEntry)
}.

Definition createHandler (listings : list Listing) : Handler :=
  {| data := listings; pinnedIds := []; stats := None; hostRanking := None |}.

(** ** filter *)

Record Criteria : Type := mkCriteria {
  priceRange : option (number * number);
  rooms : option number;
  reviewScore : option number
}.

(** The three guarded blocks of the callback, each refining [valid]. *)
Definition checkPrice (criteria : Criteria) (listing : Listing) (valid : bool)
  : bool :=
  match priceRange criteria with
  | Some (lo, hi) =>
      let price := parseFloat (get listing "price") in
      valid && num_ge price lo && num_le price hi
  | None => valid
  end.

Definition checkRooms (criteria : Criteria) (listing : Listing) (valid : bool)
  : bool :=
  match rooms criteria with
  | Some r =>
      if num_ToBoolean r then
        let rooms := num_or (parseInt (get listing "bedrooms")) zero in
        valid && num_ge rooms r
      else valid
  | None => valid
  end.

Definition checkReview (criteria : Criteria) (listing : Listing) (valid : bool)
  : bool :=
  match reviewScore criteria with
  | Some r =>
      if num_ToBoolean r then
        let score :=
          num_or (parseFloat (get listing "review_scores_rating")) zero in
        valid && num_ge score r
      else valid
  | None => valid
  end.

Definition matches (criteria : Criteria) (listing : Listing) : bool :=
  let valid := true in
  let valid := checkPrice criteria listing valid in
  let valid := checkRooms criteria listing valid in
  let valid := checkReview criteria listing valid in
  valid.

Definition filter (criteria : Criteria) (h : Handler) : Handler :=
  {| data := List.filter (matches criteria) (data h);
     pinnedIds := pinnedIds h;
     stats := stats h;
     hostRanking := hostRanking h |}.

(** ** computeStats *)

Definition totalPrice (ws : list Listing) : number :=
  fold_left
    (fun sum listing =>
       num_add sum (num_or (parseFloat (get listing "price")) zero))
    ws zero.

Definition totalBedrooms (ws : list Listing) : number :=
  fold_left
    (fun sum listing =>
       num_add sum (num_or (parseInt (get listing "bedrooms")) zero))
    ws zero.

Definition computeStats (h : Handler) : Handler :=
  let count := List.length (data h) in
  let totalPrice := totalPrice (data h) in
  let totalBedrooms := totalBedrooms (data h) in
  let avgPricePerBedroom :=
    if num_ToBoolean totalBedrooms
    then num_div totalPrice totalBedrooms
    else zero in
  {| data := data h;
     pinnedIds := pinnedIds h;
     stats := Some (mkStats count avgPricePerBedroom);
     hostRanking := hostRanking h |}.

(** ** computeHostRanking *)

(** The property key a host id is used as. *)
Definition hostKey (listing : Listing) : string :=
  ToString (get listing "host_id").

Definition countHost (acc : Obj) (listing : Listing) : Obj :=
  let host := hostKey listing in
  obj_set acc host (or0_plus1 (obj_get acc host)).

Definition countHosts (ws : list Listing) : Obj :=
  fold_left countHost ws emptyObject.

(** The comparator [(a, b) => b.count - a.count]. *)
Definition byCountDesc (a b : HostEntry) : option Z :=
  Cell_sub (host_count b) (host_count a).

Definition rankHosts (ws : list Listing) : list HostEntry :=
  sort byCountDesc
       (map (fun e => mkHostEntry (fst e) (snd e))
            (Object_entries (countHosts ws))).

Definition computeHostRanking (h : Handler) : Handler :=
  {| data := data h;
     pinnedIds := pinnedIds h;
     stats := stats h;
     hostRanking := Some (rankHosts (data h)) |}.

(** ** Pinning *)

Definition pinListing (listingId : Value) (h : Handler) : Handler :=
  {| data := data h;
     pinnedIds :=
       if negb (arr_includes (pinnedIds h) listingId)
       then (pinnedIds h ++ [listingId])%list
       else pinnedIds h;
     stats := stats h;
     hostRanking := hostRanking h |}.

(** The two callbacks of [getData]; the first is also that of
    [getPinnedListings]. *)
Definition isPinned (pinned : list Value) (listing : Listing) : bool :=
  let id := get listing "id" in
  ToBoolean id && arr_includes pinned id.

Definition isNotPinned (pinned : list Value) (listing : Listing) : bool :=
  let id := get listing "id" in
  negb (ToBoolean id) || negb (arr_includes pinned id).

Definition getPinnedListings (h : Handler) : list Listing :=
  List.filter (isPinned (pinnedIds h)) (data h).

Definition getData (h : Handler) : list Listing :=
  if (0 <? List.length (pinnedIds h))%nat then
    let pinnedListings := List.filter (isPinned (pinnedIds h)) (data h) in
    let nonPinnedListings := List.filter (isNotPinned (pinnedIds h)) (data h) in
    (pinnedListings ++ nonPinnedListings)%list
  else data h.

(** [exportResults]: the text handed to [fs.writeFile]. *)
Definition exportResults (h : Handler) : string := convertToCSV (getData h).

(** ** Sequences of calls *)

Inductive Call : Type :=
| CallFilter (criteria : Criteria)
| CallComputeStats
| CallComputeHostRanking
| CallPinListing (listingId : Value)
| CallGetPinnedListings
| CallExportResults
| CallGetData.

(** The state after a call; the three readers leave it as it is. *)
Definition call (h : Handler) (c : Call) : Handler :=
  match c with
  | CallFilter criteria => filter criteria h
  | CallComputeStats => computeStats h
  | CallComputeHostRanking => computeHostRanking h
  | CallPinListing listingId => pinListing listingId h
  | CallGetPinnedListings | CallExportResults | CallGetData => h
  end.

Definition calls (cs : list Call) (h : Handler) : Handler :=
  fold_left call cs h.

(** ** The front end: the filter prompt

    [promptFilter] of [ui.js] asks for a price range, a minimum number of
    rooms and a minimum review score, builds a criteria object from the
    three answers, calls [filter] and prints the number of listings of
    [getData]. *)

Definition answeredPriceRange (priceInput : string)
  : option (number * number) :=
  if negb (String.eqb (trim priceInput) EmptyString) then
    let parts := map StringToNumber (split comma priceInput) in
    match parts with
    | [lo; hi] =>
        if negb (num_isNaN lo) && negb (num_isNaN hi)
        then Some (lo, hi) else None
    | _ => None
    end
  else None.

Definition answeredThreshold (input : string) : option number :=
  if negb (String.eqb (trim input) EmptyString)
     && negb (num_isNaN (StringToNumber input))
  then Some (StringToNumber input) else None.

Definition promptCriteria (priceInput roomsInput reviewInput : string)
  : Criteria :=
  {| priceRange := answeredPriceRange priceInput;
     rooms := answeredThreshold roomsInput;
     reviewScore := answeredThreshold reviewInput |}.

(** The handler after the prompt, and the number the message reports. *)
Definition promptFilter (priceInput roomsInput reviewInput : string)
           (h : Handler) : Handler * nat :=
  let criteria := promptCriteria priceInput roomsInput reviewInput in
  let h' := filter criteria h in
  (h', List.length (getData h')).

(* ================================================================== *)
(** * Part III: vocabulary of the specification *)
(* ================================================================== *)

(** [Subseq l1 l2]: [l1] is [l2] with some elements left out, the others
    in their order. *)
Inductive Subseq {A : Type} : list A -> list A -> Prop :=
| Subseq_nil : Subseq [] []
| Subseq_skip : forall x l1 l2, Subseq l1 l2 -> Subseq l1 (x :: l2)
| Subseq_keep : forall x l1 l2, Subseq l1 l2 -> Subseq (x :: l1) (x :: l2).

(** A listing counts as pinned when its id is a non-empty string that is
    in the pinned-id list. *)
Definition PinnedRecord (h : Handler) (listing : Listing) : Prop :=
  (exists s, get listing "id" = VString s /\ s <> EmptyString)
  /\ In (get listing "id") (pinnedIds h).

(** The reading on which an id counts as pinned as soon as it is in the
    pinned-id list, whatever the id is. *)
Definition idListed (pinned : list Value) (listing : Listing) : bool :=
  arr_includes pinned (get listing "id").

Definition getData_by_listed_id (h : Handler) : list Listing :=
  match pinnedIds h with
  | [] => data h
  | _ =>
      (List.filter (idListed (pinnedIds h)) (data h)
       ++ List.filter (fun l => negb (idListed (pinnedIds h) l)) (data h))%list
  end.

(** ** Statistics *)

Definition isZero (x : number) : bool :=
  match x with
  | S754_zero _ => true
  | _ => false
  end.

Definition isNaN (x : number) : bool :=
  match x with
  | S754_nan => true
  | _ => false
  end.

(** A coerced field value: what is not a number counts as 0, and so does
    a zero of either sign. *)
Definition coerced (x : number) : number :=
  match x with
  | S754_nan | S754_zero _ => zero
  | _ => x
  end.

(** The sum, from the left, of the coerced values of a field. *)
Definition sumCoerced (f : Listing -> number) (ws : list Listing) : number :=
  fold_left (fun acc listing => num_add acc (coerced (f listing))) ws zero.

Definition priceOf (listing : Listing) : number :=
  parseFloat (get listing "price").

Definition bedroomsOf (listing : Listing) : number :=
  parseInt (get listing "bedrooms").

(** The average of the specification, with its guard on a bedroom sum of
    0 only. *)
Definition avg_guarding_zero (ws : list Listing) : number :=
  let p := sumCoerced priceOf ws in
  let b := sumCoerced bedroomsOf ws in
  if isZero b then zero else num_div p b.

(** The average with the guard on a bedroom sum that is 0 or NaN. *)
Definition avg_guarding_zero_and_NaN (ws : list Listing) : number :=
  let p := sumCoerced priceOf ws in
  let b := sumCoerced bedroomsOf ws in
  if isZero b || isNaN b then zero else num_div p b.

(** ** Criteria *)

(** A number with an integer value. *)
Definition isInteger (x : number) : bool :=
  match x with
  | S754_zero _ => true
  | S754_finite _ m e => (0 <=? e) || (Zpos m mod 2 ^ (- e) =? 0)
  | _ => false
  end.

(** A threshold that is absent, 0 or NaN. *)
Definition unconstrained (threshold : option number) : bool :=
  match threshold with
  | Some r => negb (num_ToBoolean r)
  | None => true
  end.

Definition roomsOnly (r : number) : Criteria :=
  {| priceRange := None; rooms := Some r; reviewScore := None |}.

Definition priceOnly (lo hi : number) : Criteria :=
  {| priceRange := Some (lo, hi); rooms := None; reviewScore := None |}.


(** ** Numerals

    The text of a decimal numeral, built from its parts, and the number it
    denotes. *)

(** A decimal digit. *)
Definition isDigit (d : Z) : Prop := 0 <= d < 10.



Inductive Sign : Type := NoSign | PlusSign | MinusSign.


Definition isMinus (s : Sign) : bool :=
  match s with
  | MinusSign => true
  | _ => false
  end.

(** An exponent part: the letter e in either case, a sign and digits. *)
Record Exponent : Type := mkExponent {
  exponentMark : ascii;
  exponentSign : Sign;
  exponentDigits : list Z
}.

(** A decimal numeral: a sign, the digits before the point, the digits
    after it when there is a point, and an exponent part when there is
    one. *)
Record Numeral : Type := mkNumeral {
  numeralSign : Sign;
  intDigits : list Z;
  fraction : option (list Z);
  exponent : option Exponent
}.

Definition fracDigits (n : Numeral) : list Z :=
  match fraction n with
  | Some fp => fp
  | None => []
  end.




Definition exponentValue (n : Numeral) : Z :=
  match exponent n with
  | Some x =>
      if isMinus (exponentSign x)
      then - mathValue 10 (exponentDigits x)
      else mathValue 10 (exponentDigits x)
  | None => 0
  end.

(** The number a numeral denotes: its digits, read as an integer and
    scaled by the power of ten of the exponent less the number of
    fraction digits, correctly rounded. *)
Definition numeralValue (n : Numeral) : number :=
  num_of_decimal (isMinus (numeralSign n))
                 (mathValue 10 (intDigits n ++ fracDigits n))
                 (exponentValue n - Z.of_nat (List.length (fracDigits n))).







(** ** Answers to a prompt *)

(** A text without the delimiter. *)
Definition commaFree (s : string) : Prop :=
  ~ In comma (list_ascii_of_string s).

(** A text of white space only. *)
Definition blank (s : string) : Prop :=
  Forall (fun c => isWhiteSpace c = true) (list_ascii_of_string s).

(** ** Delimited text *)

Definition special (c : ascii) : Prop :=
  c = comma \/ c = dquote \/ c = newline.

Definition ContainsSpecial (s : string) : Prop :=
  exists c, In c (list_ascii_of_string s) /\ special c.

(** Each quote character written twice. *)
Definition doubleQuotes (s : string) : string :=
  string_of_list_ascii
    (flat_map (fun c => if Ascii.eqb c dquote then [dquote; dquote] else [c])
              (list_ascii_of_string s)).

Definition quoted (s : string) : string :=
  String dquote (doubleQuotes s ++ str1 dquote).

(** The test of [quoteField] on the text of a field. *)
Definition needsQuotes (s : string) : bool :=
  includes s (str1 comma) || includes s (str1 dquote)
  || includes s (str1 newline).

(** The text a field stands for: a missing value and null stand for the
    empty text, an inherited property for its text. *)
Definition fieldText (m : Member) : string :=
  match m with
  | MValue VUndefined | MValue VNull => EmptyString
  | _ => Member_ToString m
  end.

(** The line of a record under given headers. *)
Definition encodeRow (headers : list string) (row : Listing) : string :=
  join (str1 comma)
       (map (fun header => quoteField (getMember row header)) headers).

(** A text that is empty or begins with the delimiter: what can follow a
    field in a line. *)
Definition fieldEnd (t : string) : Prop :=
  t = EmptyString \/ exists r, t = String comma r.

(** ** Host ranking *)

(** A numeral that does not begin with the digit 0. *)
Definition canonical (ds : list Z) : Prop :=
  Forall isDigit ds /\ exists d r, ds = d :: r /\ 1 <= d.

(** The own keys of a table, in [Object.entries] order. *)
Definition keysOf (o : Obj) : list string := map fst o.

(** The keys of a list at their first occurrence. *)
Fixpoint firstOccurrences (ks : list string) : list string :=
  match ks with
  | [] => []
  | k :: ks' =>
      k :: List.filter (fun k' => negb (String.eqb k' k)) (firstOccurrences ks')
  end.

Definition isIndexKey (k : string) : bool :=
  match arrayIndex k with
  | Some _ => true
  | None => false
  end.

(** The order of own keys: an array index is before every larger array
    index and before every key that is not an array index; keys that are
    not array indices are not ordered by their names. *)
Definition keyOrder (k1 k2 : string) : Prop :=
  match arrayIndex k1, arrayIndex k2 with
  | Some i, Some j => i < j
  | Some _, None => True
  | None, Some _ => False
  | None, None => True
  end.

Definition notIndexKey (k : string) : bool := negb (isIndexKey k).

(** The count of an entry, 0 for an entry that holds a text. *)
Definition numCount (e : HostEntry) : nat :=
  match host_count e with
  | CNum n => n
  | CText _ => 0
  end.

Definition entryOf (p : string * Cell) : HostEntry :=
  mkHostEntry (fst p) (snd p).

(** The counts of a table, added up. *)
Definition tableSum (o : Obj) : nat :=
  list_sum (map (fun p => numCount (entryOf p)) o).

(** An entry whose count is a number. *)
Definition numeric (e : HostEntry) : Prop :=
  exists n, host_count e = CNum n.

(** The number of listings of the working set with host key [k]. *)
Definition occurrences (k : string) (ws : list Listing) : nat :=
  List.length (List.filter (fun l => String.eqb (hostKey l) k) ws).

Definition hasCount (c : Cell) (e : HostEntry) : bool :=
  match host_count e, c with
  | CNum n, CNum m => Nat.eqb n m
  | CText s, CText t => String.eqb s t
  | _, _ => false
  end.

(** The hosts of the entries of a ranking whose count is [n], in the
    order of the ranking. *)
Definition tiedHosts (n : nat) (ranking : list HostEntry) : list string :=
  map host (List.filter (hasCount (CNum n)) ranking).

(** The host key has [n] listings in the working set. *)
Definition hasListings (n : nat) (ws : list Listing) (k : string) : bool :=
  Nat.eqb (occurrences k ws) n.

(** No host key of the working set names a property of
    [Object.prototype]. *)
Definition RegularHosts (ws : list Listing) : Prop :=
  Forall (fun l => inheritedKey (hostKey l) = false) ws.

(** ** Example inputs *)

Definition listing_of_id (id : string) : Listing :=
  [("id"%string, VString id); ("price"%string, VString "10")].

Definition listing_blank_id : Listing := listing_of_id EmptyString.

Definition listing_of_host (h : string) : Listing :=
  [("id"%string, VString "1"); ("host_id"%string, VString h)].

Definition listing_no_host : Listing := [("id"%string, VString "7")].

Definition listing_of_numbers (price bedrooms : string) : Listing :=
  [("price"%string, VString price); ("bedrooms"%string, VString bedrooms)].

(** The empty string and A pinned, over a listing with an empty id and
    the listing A. *)
Definition handler_blank_pinned : Handler :=
  pinListing (VString "A")
    (pinListing (VString EmptyString)
       (createHandler [listing_blank_id; listing_of_id "A"])).

(** A and B pinned over the working set C, A, D, B. *)
Definition handler_AB_pinned : Handler :=
  pinListing (VString "B")
    (pinListing (VString "A")
       (createHandler [listing_of_id "C"; listing_of_id "A";
                       listing_of_id "D"; listing_of_id "B"])).

Definition listing_minus_one_bedroom : Listing :=
  listing_of_numbers "50" "-1".




(** A record whose only field is named toString, and a record without
    fields. *)
Definition record_toString : Listing := [("toString"%string, VString "a")].

Definition record_empty : Listing := [].

(** Two hosts with one listing each, the larger id first. *)
Definition listings_two_hosts : list Listing :=
  [listing_of_host "2"; listing_of_host "1"].

(** Two listings without a host id around a listing of host 5. *)
Definition listings_missing_host : list Listing :=
  [listing_no_host; listing_of_host "5"; listing_no_host].

(** Hosts with numeric and other ids, some with several listings. *)
Definition listings_mixed_hosts : list Listing :=
  [listing_of_host "zeta"; listing_of_host "10"; listing_of_host "9";
   listing_of_host "alpha"; listing_of_host "zeta"; listing_of_host "10";
   listing_no_host].

(** A numeral of 400 nines: an integer above every finite double. *)
Definition nines : string := string_of_list_ascii (repeat "9"%char 400).

(** Bedroom counts that overflow to the two infinities. *)
Definition listings_overflowing_bedrooms : list Listing :=
  [listing_of_numbers "100" nines;
   listing_of_numbers "100" (String "-" nines)].

(* ================================================================== *)
(** * Part IV: properties *)
(* ================================================================== *)

(** ** Lists *)

Section ListFacts.
Context {A : Type}.

Lemma Subseq_refl (l : list A) : Subseq l l.
Proof. induction l; constructor; assumption. Qed.

Lemma Subseq_trans (l1 l2 l3 : list A) :
  Subseq l1 l2 -> Subseq l2 l3 -> Subseq l1 l3.
Proof.
  intros H12 H23. revert l1 H12.
  induction H23 as [| x l2 l3 _ IH | x l2 l3 _ IH]; intros l1 H12.
  - assumption.
  - constructor. apply IH. assumption.
  - inversion H12; subst.
    + apply Subseq_skip. apply IH. assumption.
    + apply Subseq_keep. apply IH. assumption.
Qed.

Lemma Subseq_filter (f : A -> bool) (l : list A) :
  Subseq (List.filter f l) l.
Proof.
  induction l as [| x l IH]; simpl.
  - constructor.
  - destruct (f x); constructor; assumption.
Qed.

Lemma Permutation_filter_split (f g : A -> bool) (l : list A) :
  (forall x, g x = negb (f x)) ->
  Permutation (List.filter f l ++ List.filter g l) l.
Proof.
  intros Hg. induction l as [| x l IH]; simpl.
  - constructor.
  - rewrite Hg. destruct (f x); simpl.
    + constructor. assumption.
    + symmetry. apply Permutation_cons_app. symmetry. assumption.
Qed.

Lemma filter_none (f : A -> bool) (l : list A) :
  (forall x, In x l -> f x = false) -> List.filter f l = [].
Proof.
  induction l as [| x l IH]; simpl; intros H.
  - reflexivity.
  - rewrite (H x (or_introl eq_refl)). apply IH.
    intros y Hy. apply H. right. assumption.
Qed.

Lemma filter_all (f : A -> bool) (l : list A) :
  (forall x, In x l -> f x = true) -> List.filter f l = l.
Proof.
  induction l as [| x l IH]; simpl; intros H.
  - reflexivity.
  - rewrite (H x (or_introl eq_refl)). f_equal. apply IH.
    intros y Hy. apply H. right. assumption.
Qed.
End ListFacts.

Lemma fold_left_snoc {A B : Type} (f : A -> B -> A) (l : list B) (x : B)
      (a : A) :
  fold_left f (l ++ [x])%list a = f (fold_left f l a) x.
Proof. rewrite fold_left_app. reflexivity. Qed.

Lemma fold_left_pointwise {A B : Type} (f g : A -> B -> A) :
  (forall a b, f a b = g a b) ->
  forall (l : list B) (a : A), fold_left f l a = fold_left g l a.
Proof.
  intros Hfg l. induction l as [| b l IH]; intros a; simpl.
  - reflexivity.
  - rewrite Hfg. apply IH.
Qed.

Lemma list_sum_perm (l1 l2 : list nat) :
  Permutation l1 l2 -> list_sum l1 = list_sum l2.
Proof.
  intros H. induction H; simpl; lia.
Qed.

Lemma StronglySorted_snoc {A : Type} (R : A -> A -> Prop) (l : list A)
      (x : A) :
  StronglySorted R l -> Forall (fun y => R y x) l ->
  StronglySorted R (l ++ [x]).
Proof.
  induction 1 as [| y l Hs IH Hy]; intros Hx; simpl.
  - constructor; constructor.
  - inversion Hx; subst. constructor; [apply IH; assumption |].
    apply Forall_app. split; [assumption | constructor; [assumption | constructor]].
Qed.

Lemma existsb_eqb_In (k : string) (l : list string) :
  existsb (String.eqb k) l = true <-> In k l.
Proof.
  rewrite existsb_exists. split.
  - intros [x [Hx He]]. apply String.eqb_eq in He. subst. assumption.
  - intros H. exists k. split; [assumption | apply String.eqb_refl].
Qed.

Lemma firstOccurrences_snoc (l : list string) (k : string) :
  firstOccurrences (l ++ [k])
  = (firstOccurrences l
     ++ (if existsb (String.eqb k) l then [] else [k]))%list.
Proof.
  induction l as [| a l IH]; simpl; [reflexivity |].
  rewrite IH, filter_app. f_equal. f_equal.
  destruct (String.eqb_spec k a) as [-> | Hne]; simpl.
  - destruct (existsb (String.eqb a) l); simpl;
      [reflexivity | rewrite String.eqb_refl; reflexivity].
  - destruct (existsb (String.eqb k) l); simpl; [reflexivity |].
    destruct (String.eqb_spec k a); [contradiction | reflexivity].
Qed.

Lemma append_assoc (a b c : string) :
  ((a ++ b) ++ c)%string = (a ++ (b ++ c))%string.
Proof.
  induction a as [| x a IH]; simpl; [reflexivity | rewrite IH; reflexivity].
Qed.

Lemma append_nil_r (a : string) : (a ++ EmptyString)%string = a.
Proof.
  induction a as [| x a IH]; simpl; [reflexivity | rewrite IH; reflexivity].
Qed.

(** ** Values *)

Lemma Value_eqb_eq (a b : Value) : Value_eqb a b = true <-> a = b.
Proof.
  destruct a, b; simpl; split; intros H;
    try reflexivity; try discriminate.
  - apply String.eqb_eq in H. congruence.
  - inversion H. apply String.eqb_refl.
Qed.

Lemma arr_includes_In (arr : list Value) (v : Value) :
  arr_includes arr v = true <-> In v arr.
Proof.
  unfold arr_includes. rewrite existsb_exists. split.
  - intros [x [Hx He]]. apply Value_eqb_eq in He. subst. assumption.
  - intros H. exists v. split; [assumption | apply Value_eqb_eq; reflexivity].
Qed.

Lemma ToBoolean_true (v : Value) :
  ToBoolean v = true <-> exists s, v = VString s /\ s <> EmptyString.
Proof.
  destruct v as [| | [| c s]]; simpl; split; intros H;
    try discriminate; try reflexivity.
  - destruct H as [s [Hs _]]. discriminate.
  - destruct H as [s [Hs _]]. discriminate.
  - destruct H as [s [Hs Hne]]. inversion Hs. congruence.
  - exists (String c s). split; [reflexivity | discriminate].
Qed.

(** ** Numbers *)



Lemma num_or_zero_coerced (x : number) : num_or x zero = coerced x.
Proof. destruct x; reflexivity. Qed.

Lemma num_ToBoolean_isZero (r : number) :
  isInteger r = true -> num_ToBoolean r = negb (isZero r).
Proof. destruct r; simpl; intros H; try reflexivity; discriminate. Qed.

Lemma num_ToBoolean_guard (x : number) :
  num_ToBoolean x = negb (isZero x || isNaN x).
Proof. destruct x; reflexivity. Qed.

(** ** Rounding never yields NaN *)









(** ** Numerals *)

Example parseFloat_examples :
  parseFloat (VString "100") = num_of_Z 100
  /\ parseFloat (VString "0.1") = S754_finite false 7205759403792794 (-56)
  /\ parseFloat (VString "  -2.5e1xyz") = num_of_Z (-25)
  /\ parseFloat (VString "1,200.00") = num_of_Z 1
  /\ parseFloat (VString "$100.00") = NaN
  /\ parseFloat (VString ".") = NaN
  /\ parseFloat (VString "-Infinity") = S754_infinity true
  /\ parseFloat (VString "1e999") = S754_infinity false
  /\ parseFloat VUndefined = NaN.
Proof. vm_compute. repeat split; reflexivity. Qed.

Example parseInt_examples :
  parseInt (VString "3") = num_of_Z 3
  /\ parseInt (VString "3.9") = num_of_Z 3
  /\ parseInt (VString " -7 beds") = num_of_Z (-7)
  /\ parseInt (VString "0x1F") = num_of_Z 31
  /\ parseInt (VString "-0") = S754_zero true
  /\ parseInt (VString "studio") = NaN
  /\ parseInt (VString nines) = S754_infinity false
  /\ parseInt VNull = NaN.
Proof. vm_compute. repeat split; reflexivity. Qed.






(** ** The value of a numeral *)














(** ** Array indices are canonical numerals *)

Lemma radixDigit_char (c : ascii) (d : Z) :
  radixDigit 10 c = Some d ->
  isDigit d /\ c = ascii_of_nat (Z.to_nat (d + 48)).
Proof.
  unfold isDigit.
  destruct c as [b0 b1 b2 b3 b4 b5 b6 b7].
  destruct b0, b1, b2, b3, b4, b5, b6, b7; vm_compute; intros H;
    try discriminate; inversion H; subst;
    (split; [split; [discriminate | reflexivity] | reflexivity]).
Qed.

Lemma digitsPrefix_digits (s : string) :
  forall ds rest, digitsPrefix 10 s = (ds, rest) -> Forall isDigit ds.
Proof.
  induction s as [| c s IH]; simpl; intros ds rest H.
  - inversion H. constructor.
  - destruct (radixDigit 10 c) as [d |] eqn:Hc.
    + destruct (digitsPrefix 10 s) as [ds' rest'] eqn:Hs.
      inversion H; subst. constructor.
      * apply (radixDigit_char c d Hc).
      * apply (IH ds' rest eq_refl).
    + inversion H. constructor.
Qed.

Lemma digitsPrefix_inj (s1 : string) :
  forall s2 ds,
    digitsPrefix 10 s1 = (ds, EmptyString) ->
    digitsPrefix 10 s2 = (ds, EmptyString) ->
    s1 = s2.
Proof.
  induction s1 as [| c1 s1 IH]; intros s2 ds H1 H2; simpl in H1.
  - inversion H1; subst. destruct s2 as [| c2 s2]; [reflexivity |].
    simpl in H2. destruct (radixDigit 10 c2).
    + destruct (digitsPrefix 10 s2). discriminate.
    + discriminate.
  - destruct (radixDigit 10 c1) as [d1 |] eqn:Hc1; [| discriminate].
    destruct (digitsPrefix 10 s1) as [ds1 rest1] eqn:Hs1.
    inversion H1; subst.
    destruct s2 as [| c2 s2]; simpl in H2; [discriminate |].
    destruct (radixDigit 10 c2) as [d2 |] eqn:Hc2; [| discriminate].
    destruct (digitsPrefix 10 s2) as [ds2 rest2] eqn:Hs2.
    inversion H2; subst.
    apply radixDigit_char in Hc1, Hc2.
    destruct Hc1 as [_ ->], Hc2 as [_ ->].
    f_equal. apply (IH s2 ds1); [reflexivity | assumption].
Qed.

Lemma mathValue_acc (ds : list Z) (a : Z) :
  fold_left (fun a d => a * 10 + d) ds a
  = a * 10 ^ Z.of_nat (List.length ds) + mathValue 10 ds.
Proof.
  unfold mathValue. revert a. induction ds as [| d ds IH]; intros a.
  - simpl. lia.
  - cbn [fold_left List.length]. rewrite (IH (a * 10 + d)), (IH (0 * 10 + d)).
    rewrite Nat2Z.inj_succ, Z.pow_succ_r by lia. ring.
Qed.

Lemma mathValue_cons (d : Z) (ds : list Z) :
  mathValue 10 (d :: ds) = d * 10 ^ Z.of_nat (List.length ds) + mathValue 10 ds.
Proof.
  unfold mathValue at 1. cbn [fold_left]. rewrite mathValue_acc. ring.
Qed.

Lemma mathValue_bound (ds : list Z) :
  Forall isDigit ds ->
  0 <= mathValue 10 ds < 10 ^ Z.of_nat (List.length ds).
Proof.
  induction 1 as [| d ds Hd _ IH].
  - vm_compute. split; [discriminate | reflexivity].
  - rewrite mathValue_cons. cbn [List.length].
    rewrite Nat2Z.inj_succ, Z.pow_succ_r by lia.
    unfold isDigit in Hd. nia.
Qed.

Lemma mathValue_inj_length (ds1 : list Z) :
  forall ds2,
    Forall isDigit ds1 -> Forall isDigit ds2 ->
    List.length ds1 = List.length ds2 ->
    mathValue 10 ds1 = mathValue 10 ds2 ->
    ds1 = ds2.
Proof.
  induction ds1 as [| d1 ds1 IH]; intros [| d2 ds2] H1 H2 Hlen Hv;
    try discriminate; [reflexivity |].
  inversion H1; inversion H2; subst. injection Hlen as Hlen.
  rewrite !mathValue_cons, Hlen in Hv.
  pose proof (mathValue_bound ds1 ltac:(assumption)) as B1.
  pose proof (mathValue_bound ds2 ltac:(assumption)) as B2.
  rewrite Hlen in B1. unfold isDigit in *.
  assert (d1 = d2) by nia. subst.
  f_equal. apply IH; try assumption. lia.
Qed.

Lemma canonical_bounds (ds : list Z) :
  canonical ds ->
  10 ^ (Z.of_nat (List.length ds) - 1) <= mathValue 10 ds
  < 10 ^ Z.of_nat (List.length ds).
Proof.
  intros [Hd [d [r [-> Hd1]]]]. split; [| apply mathValue_bound; assumption].
  inversion Hd; subst. rewrite mathValue_cons. cbn [List.length].
  rewrite Nat2Z.inj_succ. replace (Z.succ (Z.of_nat (List.length r)) - 1)
    with (Z.of_nat (List.length r)) by lia.
  pose proof (mathValue_bound r ltac:(assumption)). nia.
Qed.

Lemma canonical_inj (ds1 ds2 : list Z) :
  canonical ds1 -> canonical ds2 ->
  mathValue 10 ds1 = mathValue 10 ds2 -> ds1 = ds2.
Proof.
  intros C1 C2 Hv.
  pose proof (canonical_bounds ds1 C1) as B1.
  pose proof (canonical_bounds ds2 C2) as B2.
  apply mathValue_inj_length; try assumption;
    [apply C1 | apply C2 |].
  rewrite Hv in B1.
  destruct (Nat.lt_trichotomy (List.length ds1) (List.length ds2))
    as [Hlt | [Heq | Hgt]]; [| exact Heq |]; exfalso.
  - assert (10 ^ Z.of_nat (List.length ds1)
            <= 10 ^ (Z.of_nat (List.length ds2) - 1))
      by (apply Z.pow_le_mono_r; lia).
    lia.
  - assert (10 ^ Z.of_nat (List.length ds2)
            <= 10 ^ (Z.of_nat (List.length ds1) - 1))
      by (apply Z.pow_le_mono_r; lia).
    lia.
Qed.

Lemma arrayIndex_Some (k : string) (n : Z) :
  arrayIndex k = Some n ->
  (k = "0"%string /\ n = 0)
  \/ exists ds, digitsPrefix 10 k = (ds, EmptyString)
                /\ canonical ds /\ n = mathValue 10 ds.
Proof.
  unfold arrayIndex. destruct k as [| c r]; [discriminate |].
  destruct (Ascii.eqb_spec c "0"%char) as [-> | Hc].
  - destruct r; [| discriminate]. intros H. inversion H. left. auto.
  - destruct (digitsPrefix 10 (String c r)) as [ds rest] eqn:Hp.
    destruct rest; [| discriminate].
    destruct (mathValue 10 ds <? 2 ^ 32 - 1); [| discriminate].
    intros H. inversion H; subst. right. exists ds.
    split; [reflexivity |]. split; [| reflexivity].
    split; [apply (digitsPrefix_digits _ _ _ Hp) |].
    simpl in Hp. destruct (radixDigit 10 c) as [d |] eqn:Hd.
    + destruct (digitsPrefix 10 r) as [ds' rest']. inversion Hp; subst.
      exists d, ds'. split; [reflexivity |].
      apply radixDigit_char in Hd. destruct Hd as [[Hd0 Hd9] Hd].
      destruct (Z.eq_dec d 0) as [-> | Hne]; [| lia].
      exfalso. apply Hc. rewrite Hd. reflexivity.
    + discriminate.
Qed.

Lemma arrayIndex_inj (k1 k2 : string) (n : Z) :
  arrayIndex k1 = Some n -> arrayIndex k2 = Some n -> k1 = k2.
Proof.
  intros H1 H2. apply arrayIndex_Some in H1, H2.
  destruct H1 as [[-> Hn1] | [ds1 [Hp1 [C1 Hn1]]]],
           H2 as [[-> Hn2] | [ds2 [Hp2 [C2 Hn2]]]].
  - reflexivity.
  - exfalso. pose proof (canonical_bounds ds2 C2) as B.
    assert (0 < 10 ^ (Z.of_nat (List.length ds2) - 1)).
    { apply Z.pow_pos_nonneg; [lia |].
      destruct C2 as [_ [d [r [-> _]]]]. cbn [List.length]. lia. }
    lia.
  - exfalso. pose proof (canonical_bounds ds1 C1) as B.
    assert (0 < 10 ^ (Z.of_nat (List.length ds1) - 1)).
    { apply Z.pow_pos_nonneg; [lia |].
      destruct C1 as [_ [d [r [-> _]]]]. cbn [List.length]. lia. }
    lia.
  - assert (ds1 = ds2) by (apply canonical_inj; try assumption; lia).
    subst. apply (digitsPrefix_inj k1 k2 ds2); assumption.
Qed.

(** ** Delimited text *)

Lemma includes_char (s : string) (c : ascii) :
  includes s (str1 c) = true <-> In c (list_ascii_of_string s).
Proof.
  induction s as [| a s IH]; simpl.
  - split; [discriminate | intros []].
  - rewrite orb_true_iff, IH.
    destruct (Ascii.ascii_dec c a) as [-> | Hne].
    + split; intros _; [left; reflexivity | left].
      destruct s; reflexivity.
    + split.
      * intros [H | H]; [discriminate | right; assumption].
      * intros [H | H]; [congruence | right; assumption].
Qed.

Lemma needsQuoting_ContainsSpecial (s : string) :
  includes s (str1 comma) || includes s (str1 dquote)
  || includes s (str1 newline) = true
  <-> ContainsSpecial s.
Proof.
  rewrite !orb_true_iff, !includes_char. unfold ContainsSpecial, special.
  split.
  - intros [[H | H] | H]; eexists; (split; [exact H |]); auto.
  - intros [c [Hc [-> | [-> | ->]]]]; auto.
Qed.

Lemma replaceQuotes_doubleQuotes (s : string) :
  replaceQuotes s = doubleQuotes s.
Proof.
  unfold doubleQuotes. induction s as [| c s IH]; simpl.
  - reflexivity.
  - rewrite IH. destruct (Ascii.eqb c dquote); reflexivity.
Qed.

Lemma getOwn_absent (row : Listing) (header : string) :
  ~ In header (Object_keys row) -> getOwn row header = None.
Proof.
  unfold Object_keys. induction row as [| [k v] row IH]; simpl; intros H.
  - reflexivity.
  - destruct (String.eqb_spec k header) as [-> | Hne].
    + exfalso. apply H. left. reflexivity.
    + apply IH. intros Hin. apply H. right. assumption.
Qed.

Lemma getOwn_get (o : Listing) (k : string) :
  get o k = match getOwn o k with Some v => v | None => VUndefined end.
Proof.
  induction o as [| [k' v] o IH]; simpl; [reflexivity |].
  destruct (String.eqb k' k); [reflexivity | exact IH].
Qed.

(** For a key that [Object.prototype] does not have, the two reads
    agree. *)
Lemma getMember_get (o : Listing) (k : string) :
  inheritedKey k = false -> getMember o k = MValue (get o k).
Proof.
  unfold inheritedKey, getMember. intros H.
  apply orb_false_iff in H. destruct H as [H1 H2].
  rewrite getOwn_get, H1, H2. destruct (getOwn o k); reflexivity.
Qed.

Example field_names_not_inherited :
  map inheritedKey
      ["id"; "price"; "bedrooms"; "review_scores_rating"; "host_id"]%string
  = [false; false; false; false; false].
Proof. reflexivity. Qed.

Lemma getMember_absent (row : Listing) (header : string) :
  ~ In header (Object_keys row) ->
  inheritedKey header = false ->
  getMember row header = MValue VUndefined.
Proof.
  intros H Hk. rewrite (getMember_get row header Hk), getOwn_get.
  rewrite (getOwn_absent row header H). reflexivity.
Qed.

Lemma getMember_inherited (row : Listing) (header : string) :
  ~ In header (Object_keys row) ->
  isPrototypeMethod header = true ->
  getMember row header = MFunction header.
Proof.
  intros H Hk. unfold getMember. rewrite (getOwn_absent row header H), Hk.
  destruct (isProtoAccessor header) eqn:E; [| reflexivity].
  apply String.eqb_eq in E. subst. discriminate.
Qed.

Lemma quoteField_string (s : string) :
  quoteField (MValue (VString s))
  = if needsQuotes s
    then String dquote (replaceQuotes s ++ str1 dquote)
    else s.
Proof. reflexivity. Qed.

(** The text of an inherited function holds no delimiter, quote or
    newline: it is written as it is. *)
Lemma quoteField_function (k : string) :
  isPrototypeMethod k = true -> quoteField (MFunction k) = functionSource k.
Proof.
  unfold isPrototypeMethod, prototypeMethods. cbn [existsb].
  rewrite !orb_true_iff.
  intros H.
  repeat (destruct H as [H | H];
          [apply String.eqb_eq in H; subst; vm_compute; reflexivity |]).
  discriminate.
Qed.

(** X24. The encoding of no record is the empty text.  The encoding of
    a non-empty sequence is a header line, the keys of the first record
    joined by the delimiter, followed by one line per record, the lines
    joined by newlines; the line of a record joins the encodings of what
    the record yields for the header keys.  A string value is written in
    quotes, its quote characters doubled, when it contains the delimiter,
    a quote character or a newline, and as it is otherwise; a null value
    is written as the empty string, and so is a missing value whose
    header does not name a property of [Object.prototype]. *)
Theorem convertToCSV_encoding :
  convertToCSV [] = EmptyString
  /\ (forall (first : Listing) (others : list Listing),
         exists headerLine rows,
           convertToCSV (first :: others)
           = join (str1 newline) (headerLine :: rows)
           /\ headerLine = join (str1 comma) (Object_keys first)
           /\ List.length rows = List.length (first :: others)
           /\ forall i row,
               nth_error (first :: others) i = Some row ->
               nth_error rows i
               = Some (join (str1 comma)
                            (map (fun header =>
                                    quoteField (getMember row header))
                                 (Object_keys first))))
  /\ (forall s, ContainsSpecial s -> quoteField (MValue (VString s)) = quoted s)
  /\ (forall s, ~ ContainsSpecial s -> quoteField (MValue (VString s)) = s)
  /\ quoteField (MValue VUndefined) = EmptyString
  /\ quoteField (MValue VNull) = EmptyString
  /\ (forall (row : Listing) (header : string),
         getOwn row header = Some VNull ->
         quoteField (getMember row header) = EmptyString)
  /\ (forall (row : Listing) (header : string),
         ~ In header (Object_keys row) ->
         inheritedKey header = false ->
         quoteField (getMember row header) = EmptyString).
Proof.
  split; [reflexivity |].
  split; [| split; [| split; [| split; [| split; [| split]]]]].
  - intros first others. eexists. eexists.
    split; [reflexivity |]. split; [reflexivity |].
    split; [apply length_map |].
    intros i row Hi. rewrite nth_error_map, Hi. reflexivity.
  - intros s Hs. apply needsQuoting_ContainsSpecial in Hs.
    rewrite quoteField_string. unfold needsQuotes, quoted. rewrite Hs.
    rewrite replaceQuotes_doubleQuotes. reflexivity.
  - intros s Hs. rewrite quoteField_string. unfold needsQuotes.
    destruct (includes s (str1 comma) || includes s (str1 dquote)
              || includes s (str1 newline)) eqn:E; [| reflexivity].
    exfalso. apply Hs. apply needsQuoting_ContainsSpecial. assumption.
  - reflexivity.
  - reflexivity.
  - intros row header Hnull. unfold getMember. rewrite Hnull. reflexivity.
  - intros row header H Hk.
    rewrite (getMember_absent row header H Hk). reflexivity.
Qed.

Lemma convertToCSV_encoding_witness :
  ContainsSpecial "12, Main St"
  /\ quoteField (MValue (VString "12, Main St")) = quoted "12, Main St"
  /\ ~ ContainsSpecial "plain"
  /\ quoteField (MValue (VString "plain")) = "plain"%string
  /\ ~ In "price"%string (Object_keys listing_no_host)
  /\ inheritedKey "price" = false
  /\ quoteField (getMember listing_no_host "price") = EmptyString.
Proof.
  assert (H1 : ContainsSpecial "12, Main St").
  { exists comma. split; [simpl; auto | left; reflexivity]. }
  assert (H2 : ~ ContainsSpecial "plain").
  { intros [c [Hc Hs]]. simpl in Hc. unfold special in Hs.
    repeat (destruct Hc as [<- | Hc];
            [destruct Hs as [Hs | [Hs | Hs]]; discriminate |]).
    exact Hc. }
  assert (H3 : ~ In "price"%string (Object_keys listing_no_host)).
  { simpl. intros [H | []]. discriminate. }
  split; [exact H1 |].
  split; [exact (proj1 (proj2 (proj2 convertToCSV_encoding)) _ H1) |].
  split; [exact H2 |].
  split; [exact (proj1 (proj2 (proj2 (proj2 convertToCSV_encoding))) _ H2) |].
  split; [exact H3 |].
  split; [reflexivity |].
  exact (proj2 (proj2 (proj2 (proj2 (proj2 (proj2 (proj2
           convertToCSV_encoding)))))) _ _ H3 eq_refl).
Defined.

(** Whatever the record, a missing field whose header names a function
    of [Object.prototype] is written as the text of that function. *)
Lemma inherited_field_written (row : Listing) (header : string) :
  ~ In header (Object_keys row) ->
  isPrototypeMethod header = true ->
  quoteField (getMember row header) = functionSource header
  /\ quoteField (getMember row header) <> EmptyString.
Proof.
  intros H Hk.
  rewrite (getMember_inherited row header H Hk).
  rewrite (quoteField_function header Hk).
  split; [reflexivity |]. unfold functionSource. discriminate.
Qed.

(** C5 fails on the code for a missing field whose header names a
    property of [Object.prototype].  With a first record whose only field
    is [toString] and a second record without fields, the read of the
    missing field finds the inherited function, and the line of the second
    record is the text of that function, not the empty text. *)
Theorem convertToCSV_inherited_field :
  Object_keys record_toString = ["toString"%string]
  /\ ~ In "toString"%string (Object_keys record_empty)
  /\ getMember record_empty "toString" = MFunction "toString"
  /\ quoteField (getMember record_empty "toString") <> EmptyString
  /\ convertToCSV [record_toString; record_empty]
     = join (str1 newline)
            ["toString"; "a"; "function toString() { [native code] }"]%string
  /\ exportResults (createHandler [record_toString; record_empty])
     = join (str1 newline)
            ["toString"; "a"; "function toString() { [native code] }"]%string.
Proof.
  split; [reflexivity |].
  split; [intros [] |].
  split; [reflexivity |].
  split; [vm_compute; discriminate |].
  split; vm_compute; reflexivity.
Qed.

(** ** The filter callback *)

Lemma checkPrice_valid (c : Criteria) (l : Listing) (valid : bool) :
  checkPrice c l valid = valid && checkPrice c l true.
Proof.
  unfold checkPrice. destruct (priceRange c) as [[lo hi] |].
  - destruct valid; reflexivity.
  - destruct valid; reflexivity.
Qed.

Lemma checkRooms_valid (c : Criteria) (l : Listing) (valid : bool) :
  checkRooms c l valid = valid && checkRooms c l true.
Proof.
  unfold checkRooms. destruct (rooms c) as [r |].
  - destruct (num_ToBoolean r); destruct valid; reflexivity.
  - destruct valid; reflexivity.
Qed.

Lemma checkReview_valid (c : Criteria) (l : Listing) (valid : bool) :
  checkReview c l valid = valid && checkReview c l true.
Proof.
  unfold checkReview. destruct (reviewScore c) as [r |].
  - destruct (num_ToBoolean r); destruct valid; reflexivity.
  - destruct valid; reflexivity.
Qed.

(** The verdict of the callback is the conjunction of the verdicts of its
    three blocks. *)
Lemma matches_blocks (c : Criteria) (l : Listing) :
  matches c l
  = checkPrice c l true && checkRooms c l true && checkReview c l true.
Proof.
  unfold matches.
  rewrite checkReview_valid, checkRooms_valid. reflexivity.
Qed.

(** C3, as stated, fails at [rooms = 0]: the block for rooms is skipped,
    and a listing whose bedrooms coerce to -1 passes although -1 is below
    0. *)
Lemma rooms_zero_counterexample :
  rooms (roomsOnly zero) = Some zero
  /\ isInteger zero = true
  /\ num_or (bedroomsOf listing_minus_one_bedroom) zero = num_of_Z (-1)
  /\ num_ge (num_or (bedroomsOf listing_minus_one_bedroom) zero) zero = false
  /\ checkRooms (roomsOnly zero) listing_minus_one_bedroom true = true
  /\ data (filter (roomsOnly zero) (createHandler [listing_minus_one_bedroom]))
     = [listing_minus_one_bedroom]
  /\ ~ (checkRooms (roomsOnly zero) listing_minus_one_bedroom true = true
        <-> num_ge (num_or (bedroomsOf listing_minus_one_bedroom) zero) zero
            = true).
Proof.
  split; [reflexivity |]. split; [reflexivity |].
  split; [vm_compute; reflexivity |]. split; [vm_compute; reflexivity |].
  split; [vm_compute; reflexivity |]. split; [vm_compute; reflexivity |].
  intros [H _]. specialize (H ltac:(vm_compute; reflexivity)).
  vm_compute in H. discriminate.
Qed.

(** C3, amended. For criteria whose [rooms] is an integer [r] other than
    0, a listing passes the rooms block if and only if its [bedrooms],
    coerced to an integer with a missing or unparsable value counting as
    0, is at least [r]; for [r = 0] the block is skipped and every listing
    passes it. *)
Theorem rooms_criterion :
  forall (c : Criteria) (r : number) (l : Listing),
    rooms c = Some r ->
    isInteger r = true ->
    matches c l
    = checkPrice c l true && checkRooms c l true && checkReview c l true
    /\ (isZero r = false ->
        (checkRooms c l true = true
         <-> num_ge (num_or (bedroomsOf l) zero) r = true))
    /\ (isZero r = true -> checkRooms c l true = true)
    /\ (bedroomsOf l = NaN -> num_or (bedroomsOf l) zero = zero)
    /\ (get l "bedrooms" = VUndefined -> num_or (bedroomsOf l) zero = zero).
Proof.
  intros c r l Hr Hint.
  split; [apply matches_blocks |].
  pose proof (num_ToBoolean_isZero r Hint) as Hb.
  unfold checkRooms. rewrite Hr, Hb. fold (bedroomsOf l).
  split; [| split; [| split]].
  - intros Hz. rewrite Hz. simpl. reflexivity.
  - intros Hz. rewrite Hz. reflexivity.
  - intros Hn. rewrite Hn. reflexivity.
  - intros Hu. unfold bedroomsOf. rewrite Hu. reflexivity.
Qed.

Lemma rooms_criterion_witness :
  rooms (roomsOnly (num_of_Z 2)) = Some (num_of_Z 2)
  /\ isInteger (num_of_Z 2) = true
  /\ isZero (num_of_Z 2) = false
  /\ (checkRooms (roomsOnly (num_of_Z 2)) (listing_of_numbers "50" "3") true
      = true
      <-> num_ge (num_or (bedroomsOf (listing_of_numbers "50" "3")) zero)
                 (num_of_Z 2) = true).
Proof.
  split; [reflexivity |]. split; [reflexivity |]. split; [reflexivity |].
  apply (proj1 (proj2 (rooms_criterion (roomsOnly (num_of_Z 2)) (num_of_Z 2)
                         (listing_of_numbers "50" "3")
                         eq_refl eq_refl))).
  reflexivity.
Defined.






Example numeral_examples :
  parseFloat (VString "  -12.50 per night")
  = numeralValue
      {| numeralSign := MinusSign; intDigits := [1; 2];
         fraction := Some [5; 0]; exponent := None |}
  /\ parseFloat (VString "3.5E+2x")
     = numeralValue
         {| numeralSign := NoSign; intDigits := [3]; fraction := Some [5];
            exponent := Some {| exponentMark := "E"%char;
                                exponentSign := PlusSign;
                                exponentDigits := [2] |} |}
  /\ parseFloat (VString "3.5E+2x") = num_of_Z 350
  /\ parseFloat (VString "100eur") = num_of_Z 100.
Proof. repeat split; vm_compute; reflexivity. Qed.

(** ** Statistics *)

Lemma totalPrice_sumCoerced (ws : list Listing) :
  totalPrice ws = sumCoerced priceOf ws.
Proof.
  unfold totalPrice, sumCoerced. apply fold_left_pointwise.
  intros a l. unfold priceOf. rewrite num_or_zero_coerced. reflexivity.
Qed.

Lemma totalBedrooms_sumCoerced (ws : list Listing) :
  totalBedrooms ws = sumCoerced bedroomsOf ws.
Proof.
  unfold totalBedrooms, sumCoerced. apply fold_left_pointwise.
  intros a l. unfold bedroomsOf. rewrite num_or_zero_coerced. reflexivity.
Qed.

(** C1, as stated, fails when the bedroom sum is NaN: two bedroom counts
    that overflow to the two infinities add up to NaN, which is not 0, and
    the average is 0 rather than the quotient. *)
Lemma avg_NaN_sum_counterexample :
  map bedroomsOf listings_overflowing_bedrooms
  = [S754_infinity false; S754_infinity true]
  /\ sumCoerced bedroomsOf listings_overflowing_bedrooms = NaN
  /\ avg_guarding_zero listings_overflowing_bedrooms = NaN
  /\ stats (computeStats (createHandler listings_overflowing_bedrooms))
     = Some (mkStats 2 zero)
  /\ stats (computeStats (createHandler listings_overflowing_bedrooms))
     <> Some (mkStats 2 (avg_guarding_zero listings_overflowing_bedrooms)).
Proof.
  split; [vm_compute; reflexivity |].
  split; [vm_compute; reflexivity |].
  split; [vm_compute; reflexivity |].
  split; [vm_compute; reflexivity |].
  vm_compute. discriminate.
Qed.

(** C1, amended. [computeStats] sets the snapshot to the number of
    listings of the working set and to the sum of the coerced prices
    divided by the sum of the coerced bedroom counts, the average being 0
    when the bedroom sum is 0 or NaN; on an empty working set the snapshot
    is count 0 and average 0.  The working set is left as it is. *)
Theorem computeStats_snapshot :
  forall h : Handler,
    stats (computeStats h)
    = Some (mkStats (List.length (data h))
                    (avg_guarding_zero_and_NaN (data h)))
    /\ data (computeStats h) = data h
    /\ (data h = [] -> stats (computeStats h) = Some (mkStats 0 zero)).
Proof.
  intros h. split; [| split].
  - unfold computeStats, avg_guarding_zero_and_NaN. simpl.
    rewrite totalPrice_sumCoerced, totalBedrooms_sumCoerced.
    rewrite num_ToBoolean_guard.
    destruct (isZero (sumCoerced bedroomsOf (data h))
              || isNaN (sumCoerced bedroomsOf (data h))); reflexivity.
  - reflexivity.
  - intros Hd. unfold computeStats. rewrite Hd. reflexivity.
Qed.

Lemma computeStats_snapshot_witness :
  data (createHandler []) = []
  /\ stats (computeStats (createHandler [])) = Some (mkStats 0 zero).
Proof.
  split; [reflexivity |].
  exact (proj2 (proj2 (computeStats_snapshot (createHandler []))) eq_refl).
Defined.

(** The scenario of three listings with bedrooms 1, 2, 0 and prices 100,
    150, 0: two are left by [rooms = 1], and the average is the double
    nearest to 250/3. *)
Example stats_after_filter :
  stats (computeStats
           (filter (roomsOnly (num_of_Z 1))
                   (createHandler [listing_of_numbers "100" "1";
                                   listing_of_numbers "150" "2";
                                   listing_of_numbers "0" "0"])))
  = Some (mkStats 2 (num_div (num_of_Z 250) (num_of_Z 3))).
Proof. vm_compute. reflexivity. Qed.

(** ** Pinning and the output view *)

Lemma isPinned_PinnedRecord (h : Handler) (l : Listing) :
  isPinned (pinnedIds h) l = true <-> PinnedRecord h l.
Proof.
  unfold isPinned, PinnedRecord.
  rewrite andb_true_iff, ToBoolean_true, arr_includes_In. reflexivity.
Qed.

Lemma isNotPinned_negb (pinned : list Value) (l : Listing) :
  isNotPinned pinned l = negb (isPinned pinned l).
Proof.
  unfold isNotPinned, isPinned. rewrite negb_andb. reflexivity.
Qed.

(** [getData] always is the pinned listings followed by the others: with
    no pinned id the first group is empty and the second is the whole
    working set. *)
Lemma getData_split (h : Handler) :
  getData h =
  (getPinnedListings h ++ List.filter (isNotPinned (pinnedIds h)) (data h))%list.
Proof.
  unfold getData, getPinnedListings.
  destruct (pinnedIds h) as [| p ps] eqn:Hp; simpl.
  - rewrite filter_none, filter_all; [reflexivity | |];
      intros x _; unfold isNotPinned, isPinned; simpl;
      [apply orb_true_r | apply andb_false_r].
  - reflexivity.
Qed.

Lemma getData_no_pins (h : Handler) :
  pinnedIds h = [] -> getData h = data h.
Proof. intros H. unfold getData. rewrite H. reflexivity. Qed.

(** C10. A listing whose [id] is missing or the empty string is never among
    the pinned listings and always is in the non-pinned tail of [getData],
    whatever the pinned-id list holds, the listing's own id value
    included. *)
Theorem falsy_id_stays_in_tail :
  forall (h : Handler) (listing : Listing),
    In listing (data h) ->
    get listing "id" = VUndefined \/ get listing "id" = VString EmptyString ->
    ~ In listing (getPinnedListings h)
    /\ exists tail,
        getData h = (getPinnedListings h ++ tail)%list
        /\ In listing tail
        /\ forall l, In l tail -> ~ PinnedRecord h l.
Proof.
  intros h listing Hin Hid.
  assert (Hfalsy : ToBoolean (get listing "id") = false)
    by (destruct Hid as [-> | ->]; reflexivity).
  split.
  - unfold getPinnedListings. rewrite filter_In. intros [_ Hp].
    unfold isPinned in Hp. rewrite Hfalsy in Hp. discriminate.
  - exists (List.filter (isNotPinned (pinnedIds h)) (data h)).
    split; [apply getData_split |]. split.
    + apply filter_In. split; [assumption |].
      unfold isNotPinned. rewrite Hfalsy. reflexivity.
    + intros l Hl HP. apply filter_In in Hl. destruct Hl as [_ Hl].
      apply isPinned_PinnedRecord in HP.
      rewrite isNotPinned_negb, HP in Hl. discriminate.
Qed.

Lemma falsy_id_stays_in_tail_witness :
  In listing_blank_id (data handler_blank_pinned)
  /\ get listing_blank_id "id" = VString EmptyString
  /\ In (get listing_blank_id "id") (pinnedIds handler_blank_pinned)
  /\ ~ In listing_blank_id (getPinnedListings handler_blank_pinned)
  /\ exists tail,
      getData handler_blank_pinned
      = (getPinnedListings handler_blank_pinned ++ tail)%list
      /\ In listing_blank_id tail
      /\ forall l, In l tail -> ~ PinnedRecord handler_blank_pinned l.
Proof.
  split; [left; reflexivity |]. split; [reflexivity |].
  split; [left; reflexivity |].
  apply (falsy_id_stays_in_tail handler_blank_pinned listing_blank_id).
  - left. reflexivity.
  - right. reflexivity.
Defined.

(** C2, as stated, fails: with the empty string pinned, a listing whose id
    is the empty string has a pinned id, and [getData] leaves it behind
    the pinned listings. *)
Lemma getData_listed_id_counterexample :
  data handler_blank_pinned = [listing_blank_id; listing_of_id "A"]
  /\ pinnedIds handler_blank_pinned = [VString EmptyString; VString "A"]
  /\ getData_by_listed_id handler_blank_pinned
     = [listing_blank_id; listing_of_id "A"]
  /\ getData handler_blank_pinned = [listing_of_id "A"; listing_blank_id]
  /\ getData handler_blank_pinned <> getData_by_listed_id handler_blank_pinned.
Proof.
  split; [reflexivity |]. split; [reflexivity |].
  split; [reflexivity |]. split; [reflexivity |].
  vm_compute. discriminate.
Qed.

(** C2, amended. [getData] returns the working-set listings whose id is
    non-empty and pinned, in working-set order, followed by all the other
    working-set listings in their order; every listing of the working set
    is there exactly once.  With no pinned id it returns the working set
    as it is.  With A and B pinned and the working set C, A, D, B it
    returns A, B, C, D. *)
Theorem getData_pinned_first :
  forall h : Handler,
    (exists front rest,
        getData h = (front ++ rest)%list
        /\ front = getPinnedListings h
        /\ Subseq front (data h)
        /\ Subseq rest (data h)
        /\ (forall l, In l front <-> In l (data h) /\ PinnedRecord h l)
        /\ (forall l, In l rest <-> In l (data h) /\ ~ PinnedRecord h l)
        /\ Permutation (front ++ rest) (data h))
    /\ (pinnedIds h = [] -> getData h = data h)
    /\ (forall c a d b : Listing,
           data h = [c; a; d; b] ->
           map (fun l => get l "id") (data h)
           = [VString "C"; VString "A"; VString "D"; VString "B"] ->
           pinnedIds h = [VString "A"; VString "B"] ->
           getData h = [a; b; c; d]).
Proof.
  intros h. split; [| split].
  - exists (getPinnedListings h),
           (List.filter (isNotPinned (pinnedIds h)) (data h)).
    split; [apply getData_split |]. split; [reflexivity |].
    split; [apply Subseq_filter |]. split; [apply Subseq_filter |].
    split; [| split].
    + intros l. unfold getPinnedListings.
      rewrite filter_In, isPinned_PinnedRecord. reflexivity.
    + intros l. rewrite filter_In, isNotPinned_negb, negb_true_iff.
      rewrite <- isPinned_PinnedRecord.
      destruct (isPinned (pinnedIds h) l); intuition congruence.
    + apply Permutation_filter_split. apply isNotPinned_negb.
  - apply getData_no_pins.
  - intros c a d b Hd Hids Hp. unfold getData. rewrite Hp, Hd in *.
    simpl in Hids. injection Hids as Hc Ha Hd' Hb.
    simpl. unfold isPinned, isNotPinned.
    rewrite Hc, Ha, Hd', Hb. reflexivity.
Qed.

Lemma getData_pinned_first_witness :
  data handler_AB_pinned
  = [listing_of_id "C"; listing_of_id "A"; listing_of_id "D";
     listing_of_id "B"]
  /\ map (fun l => get l "id") (data handler_AB_pinned)
     = [VString "C"; VString "A"; VString "D"; VString "B"]
  /\ pinnedIds handler_AB_pinned = [VString "A"; VString "B"]
  /\ getData handler_AB_pinned
     = [listing_of_id "A"; listing_of_id "B"; listing_of_id "C";
        listing_of_id "D"].
Proof.
  split; [reflexivity |]. split; [reflexivity |]. split; [reflexivity |].
  apply (proj2 (proj2 (getData_pinned_first handler_AB_pinned)));
    reflexivity.
Defined.

(** ** The working set *)

Lemma calls_Subseq (listings : list Listing) (cs : list Call) :
  forall h, Subseq (data h) listings ->
            Subseq (data (calls cs h)) listings.
Proof.
  unfold calls. induction cs as [| c cs IH]; intros h Hh; simpl.
  - assumption.
  - apply IH. destruct c; simpl; try assumption.
    eapply Subseq_trans; [apply Subseq_filter | assumption].
Qed.

(** C7. After any sequence of calls the working set is a subsequence of
    the listings the handler was created with; a [filter] call never makes
    the working set longer, and [pinListing] leaves it as it is. *)
Theorem working_set_is_subsequence :
  (forall (listings : list Listing) (cs : list Call),
      Subseq (data (calls cs (createHandler listings))) listings)
  /\ (forall (criteria : Criteria) (h : Handler),
         (List.length (data (filter criteria h)) <= List.length (data h))%nat
         /\ Subseq (data (filter criteria h)) (data h))
  /\ (forall (listingId : Value) (h : Handler),
         data (pinListing listingId h) = data h).
Proof.
  split; [| split].
  - intros listings cs. apply calls_Subseq. apply Subseq_refl.
  - intros criteria h. split.
    + apply filter_length_le.
    + apply Subseq_filter.
  - intros listingId h. reflexivity.
Qed.

(** ** Counting tables: reads after writes *)

Lemma own_lookup_None (o : Obj) (k : string) :
  own_lookup o k = None <-> ~ In k (keysOf o).
Proof.
  induction o as [| [k' c'] o IH]; simpl.
  - split; [intros _ [] | reflexivity].
  - destruct (String.eqb_spec k' k) as [-> | Hne].
    + split; [discriminate | intros H; exfalso; apply H; left; reflexivity].
    + rewrite IH. split.
      * intros H [Hk | Hk]; [congruence | contradiction].
      * intros H Hk. apply H. right. assumption.
Qed.

Lemma own_lookup_In (o : Obj) (k : string) (c : Cell) :
  own_lookup o k = Some c -> In (k, c) o.
Proof.
  induction o as [| [k' c'] o IH]; simpl; [discriminate |].
  destruct (String.eqb_spec k' k) as [-> | Hne].
  - intros H. inversion H. left. reflexivity.
  - intros H. right. apply IH. assumption.
Qed.

Lemma In_own_lookup (o : Obj) (k : string) (c : Cell) :
  NoDup (keysOf o) -> In (k, c) o -> own_lookup o k = Some c.
Proof.
  induction o as [| [k' c'] o IH]; simpl; intros Hnd Hin; [contradiction |].
  inversion Hnd as [| ? ? Hk' Hnd']; subst.
  destruct Hin as [Heq | Hin].
  - inversion Heq; subst. rewrite String.eqb_refl. reflexivity.
  - destruct (String.eqb_spec k' k) as [-> | Hne].
    + exfalso. apply Hk'. apply (in_map fst) in Hin. exact Hin.
    + apply IH; assumption.
Qed.

Lemma keysOf_update (o : Obj) (k : string) (c : Cell) :
  keysOf (own_update o k c) = keysOf o.
Proof.
  induction o as [| [k' c'] o IH]; simpl; [reflexivity |].
  destruct (String.eqb k' k); simpl; [reflexivity | rewrite IH; reflexivity].
Qed.

Lemma own_lookup_update (o : Obj) (k k' : string) (c : Cell) :
  own_lookup (own_update o k c) k'
  = if String.eqb k k'
    then match own_lookup o k with Some _ => Some c | None => None end
    else own_lookup o k'.
Proof.
  induction o as [| [k0 c0] o IH]; simpl.
  - destruct (String.eqb k k'); reflexivity.
  - destruct (String.eqb_spec k0 k) as [-> | Hne]; simpl.
    + destruct (String.eqb_spec k k') as [-> | Hne']; reflexivity.
    + rewrite IH. destruct (String.eqb_spec k k') as [<- | Hne'].
      * destruct (String.eqb_spec k0 k); [contradiction | reflexivity].
      * reflexivity.
Qed.

Lemma insert_index_perm (i : Z) (k : string) (c : Cell) (o : Obj) :
  Permutation (insert_index i k c o) ((k, c) :: o).
Proof.
  induction o as [| [k' c'] o IH]; simpl; [reflexivity |].
  destruct (arrayIndex k') as [j |]; [| reflexivity].
  destruct (j <? i); [| reflexivity].
  rewrite IH. apply perm_swap.
Qed.

Lemma own_define_perm (o : Obj) (k : string) (c : Cell) :
  Permutation (own_define o k c) ((k, c) :: o).
Proof.
  unfold own_define. destruct (arrayIndex k) as [i |].
  - apply insert_index_perm.
  - symmetry. apply Permutation_cons_append.
Qed.

Lemma own_lookup_insert_index (i : Z) (k k' : string) (c : Cell) (o : Obj) :
  own_lookup o k = None ->
  own_lookup (insert_index i k c o) k'
  = if String.eqb k k' then Some c else own_lookup o k'.
Proof.
  induction o as [| [k0 c0] o IH]; simpl; intros Hk.
  - reflexivity.
  - destruct (String.eqb_spec k0 k) as [-> | Hne]; [discriminate |].
    destruct (arrayIndex k0) as [j |]; [destruct (j <? i) |]; simpl;
      try reflexivity.
    rewrite (IH Hk).
    destruct (String.eqb_spec k0 k') as [<- | Hne'].
    + destruct (String.eqb_spec k k0); [congruence | reflexivity].
    + reflexivity.
Qed.

Lemma own_lookup_snoc (o : Obj) (k k' : string) (c : Cell) :
  own_lookup o k = None ->
  own_lookup (o ++ [(k, c)])%list k'
  = if String.eqb k k' then Some c else own_lookup o k'.
Proof.
  induction o as [| [k0 c0] o IH]; simpl; intros Hk.
  - reflexivity.
  - destruct (String.eqb_spec k0 k) as [-> | Hne]; [discriminate |].
    rewrite (IH Hk).
    destruct (String.eqb_spec k0 k') as [<- | Hne'].
    + destruct (String.eqb_spec k k0); [congruence | reflexivity].
    + reflexivity.
Qed.

Lemma own_lookup_define (o : Obj) (k k' : string) (c : Cell) :
  own_lookup o k = None ->
  own_lookup (own_define o k c) k'
  = if String.eqb k k' then Some c else own_lookup o k'.
Proof.
  intros Hk. unfold own_define. destruct (arrayIndex k) as [i |].
  - apply own_lookup_insert_index. assumption.
  - apply own_lookup_snoc. assumption.
Qed.

(** A read at another key is not affected by an assignment. *)
Lemma own_lookup_set_other (o : Obj) (k k' : string) (c : Cell) :
  k <> k' -> own_lookup (obj_set o k c) k' = own_lookup o k'.
Proof.
  intros Hne. unfold obj_set.
  destruct (own_lookup o k) eqn:Hk.
  - rewrite own_lookup_update.
    destruct (String.eqb_spec k k'); [contradiction | reflexivity].
  - destruct (isProtoAccessor k); [reflexivity |].
    rewrite (own_lookup_define o k k' c Hk).
    destruct (String.eqb_spec k k'); [contradiction | reflexivity].
Qed.

(** A read at the assigned key finds the value, unless the key is the
    inherited accessor. *)
Lemma own_lookup_set_same (o : Obj) (k : string) (c : Cell) :
  isProtoAccessor k = false -> own_lookup (obj_set o k c) k = Some c.
Proof.
  intros Hk. unfold obj_set. destruct (own_lookup o k) eqn:Hl.
  - rewrite own_lookup_update, String.eqb_refl, Hl. reflexivity.
  - rewrite Hk, (own_lookup_define o k k c Hl), String.eqb_refl. reflexivity.
Qed.

Lemma keysOf_set (o : Obj) (k : string) (c : Cell) :
  (keysOf (obj_set o k c) = keysOf o)
  \/ (own_lookup o k = None /\ Permutation (keysOf (obj_set o k c)) (k :: keysOf o)).
Proof.
  unfold obj_set. destruct (own_lookup o k) eqn:Hl.
  - left. apply keysOf_update.
  - destruct (isProtoAccessor k); [left; reflexivity |].
    right. split; [reflexivity |].
    unfold keysOf. change (k :: map fst o) with (map fst ((k, c) :: o)).
    apply Permutation_map. apply own_define_perm.
Qed.

Lemma NoDup_keysOf_set (o : Obj) (k : string) (c : Cell) :
  NoDup (keysOf o) -> NoDup (keysOf (obj_set o k c)).
Proof.
  intros Hnd. destruct (keysOf_set o k c) as [-> | [Hl Hp]]; [assumption |].
  eapply Permutation_NoDup; [symmetry; exact Hp |].
  constructor; [apply own_lookup_None; assumption | assumption].
Qed.

Lemma In_keysOf_set (o : Obj) (k k' : string) (c : Cell) :
  In k' (keysOf (obj_set o k c)) -> k' = k \/ In k' (keysOf o).
Proof.
  destruct (keysOf_set o k c) as [-> | [_ Hp]]; [auto |].
  intros H. apply (Permutation_in _ Hp) in H. destruct H; auto.
Qed.

(** ** Counting tables: the order of the keys *)

Lemma keyOrder_named (x k : string) :
  arrayIndex k = None -> keyOrder x k.
Proof.
  intros Hk. unfold keyOrder. rewrite Hk.
  destruct (arrayIndex x); exact I.
Qed.

Lemma keysOf_insert_index_perm (i : Z) (k : string) (c : Cell) (o : Obj) :
  Permutation (keysOf (insert_index i k c o)) (k :: keysOf o).
Proof.
  unfold keysOf. change (k :: map fst o) with (map fst ((k, c) :: o)).
  apply Permutation_map. apply insert_index_perm.
Qed.

Lemma insert_index_sorted (i : Z) (k : string) (c : Cell) (o : Obj) :
  arrayIndex k = Some i ->
  ~ In k (keysOf o) ->
  StronglySorted keyOrder (keysOf o) ->
  StronglySorted keyOrder (keysOf (insert_index i k c o)).
Proof.
  intros Hk. induction o as [| [k' c'] o IH]; simpl; intros Hnin Hs.
  - constructor; constructor.
  - inversion Hs as [| ? ? Hs' Hall]; subst.
    assert (Hne : k' <> k) by (intros E; apply Hnin; left; exact E).
    assert (Hnin' : ~ In k (keysOf o))
      by (intros E; apply Hnin; right; exact E).
    destruct (arrayIndex k') as [j |] eqn:Hk'.
    + destruct (j <? i) eqn:Hji; simpl.
      * apply Z.ltb_lt in Hji. constructor; [apply IH; assumption |].
        eapply Permutation_Forall;
          [symmetry; apply keysOf_insert_index_perm |].
        constructor; [| assumption].
        unfold keyOrder. rewrite Hk', Hk. assumption.
      * apply Z.ltb_ge in Hji.
        assert (Hij : i < j).
        { destruct (Z.eq_dec i j) as [E | E]; [| lia].
          exfalso. apply Hne. subst j.
          apply (arrayIndex_inj k' k i); assumption. }
        constructor; [assumption |].
        constructor; [unfold keyOrder; rewrite Hk, Hk'; assumption |].
        eapply Forall_impl; [| exact Hall]. intros x Hx.
        unfold keyOrder in *. rewrite Hk' in Hx. rewrite Hk.
        destruct (arrayIndex x); [lia | exact I].
    + simpl. constructor; [assumption |].
      constructor; [unfold keyOrder; rewrite Hk, Hk'; exact I |].
      eapply Forall_impl; [| exact Hall]. intros x Hx.
      unfold keyOrder in *. rewrite Hk' in Hx. rewrite Hk.
      destruct (arrayIndex x); [contradiction | exact I].
Qed.

Lemma obj_set_sorted (o : Obj) (k : string) (c : Cell) :
  StronglySorted keyOrder (keysOf o) ->
  StronglySorted keyOrder (keysOf (obj_set o k c)).
Proof.
  intros Hs. unfold obj_set. destruct (own_lookup o k) eqn:Hl.
  - rewrite keysOf_update. assumption.
  - destruct (isProtoAccessor k); [assumption |].
    apply own_lookup_None in Hl. unfold own_define.
    destruct (arrayIndex k) as [i |] eqn:Hk.
    + apply insert_index_sorted; assumption.
    + unfold keysOf. rewrite map_app. simpl.
      apply StronglySorted_snoc; [assumption |].
      apply Forall_forall. intros x _. apply keyOrder_named. assumption.
Qed.

Lemma filter_named_insert_index (i : Z) (k : string) (c : Cell) (o : Obj) :
  notIndexKey k = false ->
  List.filter notIndexKey (keysOf (insert_index i k c o))
  = List.filter notIndexKey (keysOf o).
Proof.
  intros Hk. induction o as [| [k' c'] o IH]; simpl.
  - rewrite Hk. reflexivity.
  - destruct (arrayIndex k') as [j |] eqn:Hk'.
    + destruct (j <? i); simpl.
      * rewrite IH. reflexivity.
      * rewrite Hk. reflexivity.
    + simpl. rewrite Hk. reflexivity.
Qed.

(** ** The table of a working set *)

Lemma countHosts_snoc (ws : list Listing) (l : Listing) :
  countHosts (ws ++ [l]) = countHost (countHosts ws) l.
Proof. unfold countHosts. apply fold_left_snoc. Qed.

Lemma occurrences_snoc (k : string) (ws : list Listing) (l : Listing) :
  occurrences k (ws ++ [l])
  = (occurrences k ws + (if String.eqb (hostKey l) k then 1 else 0))%nat.
Proof.
  unfold occurrences. rewrite filter_app, length_app. simpl.
  destruct (String.eqb (hostKey l) k); reflexivity.
Qed.

Lemma occurrences_In (k : string) (ws : list Listing) :
  occurrences k ws <> 0%nat <-> In k (map hostKey ws).
Proof.
  unfold occurrences. induction ws as [| l ws IH]; simpl.
  - split; [congruence | intros []].
  - destruct (String.eqb_spec (hostKey l) k) as [-> | Hne]; simpl.
    + split; [left; reflexivity | discriminate].
    + rewrite IH. split; [right; assumption |].
      intros [H | H]; [contradiction | assumption].
Qed.

Lemma occurrences_NoDup (ws : list Listing) (k : string) :
  NoDup (map hostKey ws) -> (occurrences k ws <= 1)%nat.
Proof.
  induction ws as [| l ws IH]; simpl; intros Hnd; [unfold occurrences; simpl; lia |].
  inversion Hnd as [| ? ? Hl Hnd']; subst.
  change (l :: ws) with ([l] ++ ws)%list.
  unfold occurrences in *. rewrite filter_app, length_app. simpl.
  destruct (String.eqb_spec (hostKey l) k) as [<- | Hne]; simpl.
  - assert (H0 : occurrences (hostKey l) ws = 0%nat).
    { destruct (Nat.eq_dec (occurrences (hostKey l) ws) 0) as [E | E];
        [exact E |].
      apply occurrences_In in E. contradiction. }
    unfold occurrences in H0. rewrite H0. lia.
  - apply IH. assumption.
Qed.

Lemma NoDup_keysOf_countHosts (ws : list Listing) :
  NoDup (keysOf (countHosts ws)).
Proof.
  induction ws as [| l ws IH] using rev_ind.
  - constructor.
  - rewrite countHosts_snoc. apply NoDup_keysOf_set. assumption.
Qed.

Lemma keysOf_countHosts_hosts (ws : list Listing) (k : string) :
  In k (keysOf (countHosts ws)) -> In k (map hostKey ws).
Proof.
  induction ws as [| l ws IH] using rev_ind; [intros [] |].
  rewrite countHosts_snoc, map_app, in_app_iff. intros H.
  apply In_keysOf_set in H. destruct H as [-> | H].
  - right. left. reflexivity.
  - left. apply IH. assumption.
Qed.

(** The cell of a key that [Object.prototype] does not have is the number
    of listings with that host key, and is absent when there is none. *)
Lemma countHosts_lookup (ws : list Listing) (k : string) :
  inheritedKey k = false ->
  own_lookup (countHosts ws) k
  = if Nat.eqb (occurrences k ws) 0 then None
    else Some (CNum (occurrences k ws)).
Proof.
  intros Hk.
  assert (Ha : isProtoAccessor k = false /\ isPrototypeMethod k = false).
  { unfold inheritedKey in Hk. apply orb_false_iff in Hk. exact Hk. }
  destruct Ha as [Ha Hm].
  induction ws as [| l ws IH] using rev_ind; [reflexivity |].
  rewrite countHosts_snoc, occurrences_snoc. unfold countHost.
  destruct (String.eqb_spec (hostKey l) k) as [-> | Hne].
  - rewrite (own_lookup_set_same _ _ _ Ha). unfold obj_get.
    rewrite IH, Ha, Hm.
    destruct (Nat.eqb_spec (occurrences k ws) 0) as [-> | Hn].
    + reflexivity.
    + simpl. destruct (Nat.eqb_spec (occurrences k ws + 1) 0);
        [lia | reflexivity].
  - rewrite (own_lookup_set_other _ _ _ _ Hne), IH, Nat.add_0_r. reflexivity.
Qed.

(** The keys of the table are in key order: array indices ascending, then
    the other keys. *)
Lemma countHosts_sorted (ws : list Listing) :
  StronglySorted keyOrder (keysOf (countHosts ws)).
Proof.
  induction ws as [| l ws IH] using rev_ind.
  - constructor.
  - rewrite countHosts_snoc. apply obj_set_sorted. assumption.
Qed.

(** ** Tables of regular working sets *)

Lemma RegularHosts_snoc (ws : list Listing) (l : Listing) :
  RegularHosts (ws ++ [l]) ->
  RegularHosts ws /\ inheritedKey (hostKey l) = false.
Proof.
  unfold RegularHosts. intros H. apply Forall_app in H.
  destruct H as [H1 H2]. inversion H2; subst. split; assumption.
Qed.

(** In the table of a regular working set every cell is the number of
    listings of its host. *)
Lemma regular_cells (ws : list Listing) (k : string) (c : Cell) :
  RegularHosts ws ->
  In (k, c) (countHosts ws) ->
  c = CNum (occurrences k ws) /\ (1 <= occurrences k ws)%nat.
Proof.
  intros Hreg Hin.
  assert (Hk : In k (map hostKey ws)).
  { apply keysOf_countHosts_hosts. apply (in_map fst) in Hin. exact Hin. }
  assert (Hr : inheritedKey k = false).
  { apply in_map_iff in Hk. destruct Hk as [l [<- Hl]].
    unfold RegularHosts in Hreg. rewrite Forall_forall in Hreg.
    apply Hreg. assumption. }
  apply In_own_lookup in Hin; [| apply NoDup_keysOf_countHosts].
  rewrite (countHosts_lookup ws k Hr) in Hin.
  destruct (Nat.eqb_spec (occurrences k ws) 0); [discriminate |].
  inversion Hin. split; [reflexivity | lia].
Qed.

Lemma regular_numeric (ws : list Listing) :
  RegularHosts ws -> Forall numeric (map entryOf (countHosts ws)).
Proof.
  intros Hreg. apply Forall_forall. intros e He.
  apply in_map_iff in He. destruct He as [[k c] [<- Hin]].
  destruct (regular_cells ws k c Hreg Hin) as [-> _].
  eexists. reflexivity.
Qed.

Lemma regular_keys (ws : list Listing) (k : string) :
  RegularHosts ws ->
  (In k (keysOf (countHosts ws)) <-> In k (map hostKey ws)).
Proof.
  intros Hreg. split; [apply keysOf_countHosts_hosts |].
  intros Hk.
  assert (Hr : inheritedKey k = false).
  { apply in_map_iff in Hk. destruct Hk as [l [<- Hl]].
    unfold RegularHosts in Hreg. rewrite Forall_forall in Hreg.
    apply Hreg. assumption. }
  apply occurrences_In in Hk.
  destruct (in_dec string_dec k (keysOf (countHosts ws))) as [H | H];
    [exact H |].
  apply own_lookup_None in H. rewrite (countHosts_lookup ws k Hr) in H.
  destruct (Nat.eqb_spec (occurrences k ws) 0); [contradiction | discriminate].
Qed.

(** The keys that are not array indices are in the order of their first
    occurrence in the working set. *)
Lemma countHosts_named (ws : list Listing) :
  RegularHosts ws ->
  List.filter notIndexKey (keysOf (countHosts ws))
  = firstOccurrences (List.filter notIndexKey (map hostKey ws)).
Proof.
  induction ws as [| l ws IH] using rev_ind; intros Hreg; [reflexivity |].
  apply RegularHosts_snoc in Hreg. destruct Hreg as [Hreg Hl].
  specialize (IH Hreg).
  rewrite countHosts_snoc, map_app, filter_app. simpl.
  unfold countHost, obj_set.
  destruct (own_lookup (countHosts ws) (hostKey l)) as [c0 |] eqn:Hlook.
  - (* the key is in the table: the keys stay *)
    rewrite keysOf_update, IH.
    destruct (notIndexKey (hostKey l)) eqn:Hn; [| rewrite app_nil_r; reflexivity].
    rewrite firstOccurrences_snoc.
    assert (Hin : In (hostKey l)
                     (List.filter notIndexKey (map hostKey ws))).
    { apply filter_In. split; [| assumption].
      apply keysOf_countHosts_hosts.
      apply own_lookup_In in Hlook. apply (in_map fst) in Hlook. exact Hlook. }
    apply existsb_eqb_In in Hin. rewrite Hin, app_nil_r. reflexivity.
  - (* a new key *)
    assert (Ha : isProtoAccessor (hostKey l) = false).
    { unfold inheritedKey in Hl. apply orb_false_iff in Hl. apply Hl. }
    rewrite Ha. unfold own_define, notIndexKey, isIndexKey in *.
    destruct (arrayIndex (hostKey l)) as [i |] eqn:Hi; simpl.
    + rewrite app_nil_r, <- IH.
      apply filter_named_insert_index.
      unfold notIndexKey, isIndexKey. rewrite Hi. reflexivity.
    + unfold keysOf in *. rewrite map_app, filter_app, IH. simpl.
      unfold isIndexKey. rewrite Hi. simpl.
      rewrite firstOccurrences_snoc.
      destruct (existsb (String.eqb (hostKey l))
                        (List.filter
                           (fun k => negb match arrayIndex k with
                                          | Some _ => true
                                          | None => false
                                          end)
                           (map hostKey ws))) eqn:He; [| reflexivity].
      exfalso. apply existsb_eqb_In in He. apply filter_In in He.
      destruct He as [He _]. apply (regular_keys ws _ Hreg) in He.
      apply own_lookup_None in Hlook. contradiction.
Qed.

(** When no host key is an array index the table lists the hosts in the
    order of their first occurrence. *)
Lemma countHosts_first_occurrences (ws : list Listing) :
  RegularHosts ws ->
  Forall (fun l => notIndexKey (hostKey l) = true) ws ->
  keysOf (countHosts ws) = firstOccurrences (map hostKey ws).
Proof.
  intros Hreg Hn.
  assert (Hall : forall k, In k (map hostKey ws) -> notIndexKey k = true).
  { intros k Hk. apply in_map_iff in Hk. destruct Hk as [l [<- Hl]].
    rewrite Forall_forall in Hn. apply Hn. assumption. }
  rewrite <- (filter_all notIndexKey (keysOf (countHosts ws))).
  - rewrite (countHosts_named ws Hreg).
    rewrite (filter_all notIndexKey (map hostKey ws) Hall). reflexivity.
  - intros k Hk. apply Hall. apply keysOf_countHosts_hosts. assumption.
Qed.

Lemma tableSum_perm (o1 o2 : Obj) :
  Permutation o1 o2 -> tableSum o1 = tableSum o2.
Proof.
  intros H. unfold tableSum. apply list_sum_perm.
  apply Permutation_map. assumption.
Qed.

Lemma tableSum_update (o : Obj) (k : string) (n m : nat) :
  own_lookup o k = Some (CNum n) ->
  (tableSum (own_update o k (CNum m)) + n = tableSum o + m)%nat.
Proof.
  unfold tableSum. induction o as [| [k' c'] o IH]; simpl; [discriminate |].
  destruct (String.eqb k' k).
  - intros H. inversion H; subst. simpl. unfold numCount. simpl. lia.
  - intros H. simpl. specialize (IH H). lia.
Qed.

Lemma tableSum_countHost (acc : Obj) (l : Listing) :
  inheritedKey (hostKey l) = false ->
  (own_lookup acc (hostKey l) = None
   \/ exists n, own_lookup acc (hostKey l) = Some (CNum n)) ->
  tableSum (countHost acc l) = S (tableSum acc).
Proof.
  intros Hk Hl. unfold inheritedKey in Hk. apply orb_false_iff in Hk.
  destruct Hk as [Ha Hm]. unfold countHost, obj_get, obj_set.
  destruct Hl as [Hl | [n Hl]]; rewrite Hl.
  - rewrite Ha, Hm. simpl.
    rewrite (tableSum_perm _ _ (own_define_perm acc (hostKey l) (CNum 1))).
    reflexivity.
  - simpl. pose proof (tableSum_update acc (hostKey l) n (n + 1) Hl). lia.
Qed.

Lemma tableSum_countHosts (ws : list Listing) :
  RegularHosts ws -> tableSum (countHosts ws) = List.length ws.
Proof.
  induction ws as [| l ws IH] using rev_ind; intros Hreg; [reflexivity |].
  apply RegularHosts_snoc in Hreg. destruct Hreg as [Hreg Hl].
  rewrite countHosts_snoc, length_app, tableSum_countHost, IH; simpl;
    try assumption; [lia |].
  rewrite (countHosts_lookup ws _ Hl).
  destruct (Nat.eqb (occurrences (hostKey l) ws) 0);
    [left; reflexivity | right; eexists; reflexivity].
Qed.

(** ** The sort *)

Section SortFacts.
Context {A : Type}.
Variable comparefn : A -> A -> option Z.

Lemma sort_insert_perm (x : A) (l : list A) :
  Permutation (sort_insert comparefn x l) (x :: l).
Proof.
  induction l as [| y l IH]; simpl; [reflexivity |].
  destruct (0 <? sortCompare comparefn x y); [| reflexivity].
  rewrite IH. apply perm_swap.
Qed.

Lemma sort_perm (l : list A) : Permutation (sort comparefn l) l.
Proof.
  induction l as [| x l IH]; simpl; [reflexivity |].
  rewrite sort_insert_perm. constructor. assumption.
Qed.

(** Stability, for a class of elements that an element of the class
    never moves past. *)
Lemma filter_sort_insert (p : A -> bool) (x : A) (l : list A) :
  (forall y, p x = true -> 0 < sortCompare comparefn x y -> p y = false) ->
  List.filter p (sort_insert comparefn x l) = List.filter p (x :: l).
Proof.
  intros Hp. induction l as [| y l IH]; simpl; [reflexivity |].
  destruct (0 <? sortCompare comparefn x y) eqn:Hc; [| reflexivity].
  simpl. rewrite IH. simpl. apply Z.ltb_lt in Hc.
  destruct (p x) eqn:Hx; [| reflexivity].
  rewrite (Hp y eq_refl Hc). reflexivity.
Qed.

Lemma filter_sort (p : A -> bool) (l : list A) :
  (forall x y, p x = true -> 0 < sortCompare comparefn x y -> p y = false) ->
  List.filter p (sort comparefn l) = List.filter p l.
Proof.
  intros Hp. induction l as [| x l IH]; simpl; [reflexivity |].
  rewrite filter_sort_insert by (apply Hp). simpl. rewrite IH. reflexivity.
Qed.
End SortFacts.

Lemma sortCompare_numeric (x y : HostEntry) :
  numeric x -> numeric y ->
  sortCompare byCountDesc x y = Z.of_nat (numCount y) - Z.of_nat (numCount x).
Proof.
  intros [n Hn] [m Hm]. unfold sortCompare, byCountDesc, Cell_sub, numCount.
  rewrite Hn, Hm. reflexivity.
Qed.

Lemma sort_insert_sorted (x : HostEntry) (l : list HostEntry) :
  numeric x -> Forall numeric l ->
  StronglySorted (fun a b => (numCount b <= numCount a)%nat) l ->
  StronglySorted (fun a b => (numCount b <= numCount a)%nat)
                 (sort_insert byCountDesc x l).
Proof.
  intros Hx Hl Hs. induction Hs as [| y l Hs IH Hy]; simpl.
  - constructor; constructor.
  - inversion Hl as [| ? ? Hny Hnl]; subst.
    rewrite (sortCompare_numeric x y Hx Hny).
    destruct (0 <? Z.of_nat (numCount y) - Z.of_nat (numCount x)) eqn:Hc.
    + apply Z.ltb_lt in Hc. constructor; [apply IH; assumption |].
      eapply Permutation_Forall;
        [symmetry; apply sort_insert_perm |].
      constructor; [lia | assumption].
    + apply Z.ltb_ge in Hc. constructor; [constructor; assumption |].
      constructor; [lia |].
      eapply Forall_impl; [| exact Hy]. simpl. intros z Hz. lia.
Qed.

Lemma sort_sorted (l : list HostEntry) :
  Forall numeric l ->
  StronglySorted (fun a b => (numCount b <= numCount a)%nat)
                 (sort byCountDesc l).
Proof.
  induction l as [| x l IH]; simpl; intros Hl; [constructor |].
  inversion Hl; subst. apply sort_insert_sorted; try assumption.
  - eapply Permutation_Forall; [symmetry; apply sort_perm | assumption].
  - apply IH. assumption.
Qed.

(** Entries of one count keep their order in the sort. *)
Lemma sort_stable (c : Cell) (l : list HostEntry) :
  List.filter (hasCount c) (sort byCountDesc l) = List.filter (hasCount c) l.
Proof.
  apply filter_sort. intros x y Hx Hc.
  unfold hasCount in *. unfold sortCompare, byCountDesc, Cell_sub in Hc.
  destruct (host_count x) as [n | s], (host_count y) as [m | t], c as [k | u];
    simpl in *; try reflexivity; try discriminate; try lia.
  apply Nat.eqb_eq in Hx. subst. apply Nat.eqb_neq. lia.
Qed.

Lemma hasCount_numCount (e : HostEntry) :
  numeric e -> hasCount (CNum (numCount e)) e = true.
Proof.
  intros [n Hn]. unfold hasCount, numCount. rewrite Hn.
  apply Nat.eqb_refl.
Qed.

Lemma hasCount_CNum (n : nat) (e : HostEntry) :
  hasCount (CNum n) e = true -> numCount e = n.
Proof.
  unfold hasCount, numCount. destruct (host_count e); [| discriminate].
  apply Nat.eqb_eq.
Qed.

Lemma sorted_head_max (x : HostEntry) (l : list HostEntry) (y : HostEntry) :
  StronglySorted (fun a b => (numCount b <= numCount a)%nat) (x :: l) ->
  In y (x :: l) -> (numCount y <= numCount x)%nat.
Proof.
  intros Hs Hy. inversion Hs as [| ? ? _ Hall]; subst.
  destruct Hy as [<- | Hy]; [lia |].
  rewrite Forall_forall in Hall. apply Hall. assumption.
Qed.

(** Two lists of numeric entries that are sorted by count in descending
    order and list the entries of each count in the same order are
    equal. *)
Lemma sorted_stable_unique (l1 : list HostEntry) :
  forall l2 : list HostEntry,
    Forall numeric l1 -> Forall numeric l2 ->
    StronglySorted (fun a b => (numCount b <= numCount a)%nat) l1 ->
    StronglySorted (fun a b => (numCount b <= numCount a)%nat) l2 ->
    (forall c, List.filter (hasCount c) l1 = List.filter (hasCount c) l2) ->
    l1 = l2.
Proof.
  induction l1 as [| x l1 IH]; intros l2 Hn1 Hn2 Hs1 Hs2 Hf.
  - destruct l2 as [| y l2]; [reflexivity |].
    inversion Hn2; subst.
    specialize (Hf (CNum (numCount y))). simpl in Hf.
    rewrite hasCount_numCount in Hf by assumption. discriminate.
  - inversion Hn1 as [| ? ? Hx Hn1']; subst.
    destruct l2 as [| y l2].
    + specialize (Hf (CNum (numCount x))). simpl in Hf.
      rewrite hasCount_numCount in Hf by assumption. discriminate.
    + inversion Hn2 as [| ? ? Hy Hn2']; subst.
      assert (Hxy : numCount x = numCount y).
      { apply Nat.le_antisymm.
        - apply (sorted_head_max y l2 x Hs2).
          assert (Hin : In x (List.filter (hasCount (CNum (numCount x)))
                                          (y :: l2))).
          { rewrite <- Hf. simpl. rewrite hasCount_numCount by assumption.
            left. reflexivity. }
          apply filter_In in Hin. apply Hin.
        - apply (sorted_head_max x l1 y Hs1).
          assert (Hin : In y (List.filter (hasCount (CNum (numCount y)))
                                          (x :: l1))).
          { rewrite Hf. simpl. rewrite hasCount_numCount by assumption.
            left. reflexivity. }
          apply filter_In in Hin. apply Hin. }
      assert (Heq : x = y).
      { pose proof (Hf (CNum (numCount x))) as H. simpl in H.
        rewrite hasCount_numCount in H by assumption.
        rewrite Hxy in H at 2. rewrite Hxy in H at 3.
        rewrite hasCount_numCount in H by assumption.
        inversion H. reflexivity. }
      subst y. f_equal.
      inversion Hs1; inversion Hs2; subst.
      apply IH; try assumption.
      intros c. specialize (Hf c). simpl in Hf.
      destruct (hasCount c x); [inversion Hf; reflexivity | assumption].
Qed.

(** ** The ranking *)

Create HintDb tables.

#[local] Hint Resolve NoDup_keysOf_countHosts countHosts_sorted
  regular_numeric sort_sorted : tables.

Lemma rankHosts_perm (ws : list Listing) :
  Permutation (rankHosts ws) (map entryOf (countHosts ws)).
Proof. unfold rankHosts, Object_entries. apply sort_perm. Qed.

Lemma In_rankHosts (ws : list Listing) (e : HostEntry) :
  In e (rankHosts ws) <-> In (host e, host_count e) (countHosts ws).
Proof.
  split.
  - intros H. apply (Permutation_in _ (rankHosts_perm ws)) in H.
    apply in_map_iff in H. destruct H as [[k c] [<- Hin]]. exact Hin.
  - intros H. apply (Permutation_in _ (Permutation_sym (rankHosts_perm ws))).
    apply in_map_iff. exists (host e, host_count e).
    split; [destruct e; reflexivity | assumption].
Qed.

Lemma hosts_rankHosts (ws : list Listing) :
  Permutation (map host (rankHosts ws)) (keysOf (countHosts ws)).
Proof.
  rewrite (Permutation_map host (rankHosts_perm ws)).
  unfold keysOf. rewrite map_map. reflexivity.
Qed.

Lemma hosts_of_entries (o : Obj) : map host (map entryOf o) = keysOf o.
Proof. unfold keysOf. rewrite map_map. reflexivity. Qed.

Lemma hostRanking_computed (h : Handler) :
  hostRanking (computeHostRanking h) = Some (rankHosts (data h)).
Proof. reflexivity. Qed.

Lemma occurrences_undefined (ws : list Listing) :
  (List.length
     (List.filter (fun l => Value_eqb (get l "host_id") VUndefined) ws)
   <= occurrences "undefined" ws)%nat.
Proof.
  unfold occurrences. induction ws as [| l ws IH]; simpl; [lia |].
  unfold hostKey at 1.
  destruct (get l "host_id") as [| | s]; simpl.
  - lia.
  - destruct (String.eqb "null" "undefined"); simpl; lia.
  - destruct (String.eqb s "undefined"); simpl; lia.
Qed.

(** C9. When listings of the working set lack a [host_id], the ranking
    that [computeHostRanking] stores has exactly one entry whose host is
    the text undefined; its count covers all the listings without a
    [host_id]: it is the number of listings whose host key is that text.
    No host appears in two entries. *)
Theorem missing_host_id_grouped :
  forall h : Handler,
    (exists l, In l (data h) /\ get l "host_id" = VUndefined) ->
    exists (ranking : list HostEntry) (n : nat),
      hostRanking (computeHostRanking h) = Some ranking
      /\ n = occurrences "undefined" (data h)
      /\ (List.length
            (List.filter
               (fun l => Value_eqb (get l "host_id") VUndefined) (data h))
          <= n)%nat
      /\ (1 <= n)%nat
      /\ In (mkHostEntry "undefined" (CNum n)) ranking
      /\ (forall e, In e ranking -> host e = "undefined"%string ->
                    e = mkHostEntry "undefined" (CNum n))
      /\ NoDup (map host ranking).
Proof.
  intros h [l0 [Hin Hl0]].
  exists (rankHosts (data h)), (occurrences "undefined" (data h)).
  split; [apply hostRanking_computed |].
  set (ws := data h) in *.
  assert (Hpos : occurrences "undefined" ws <> 0%nat).
  { apply occurrences_In. apply in_map_iff. exists l0.
    split; [unfold hostKey; rewrite Hl0; reflexivity | assumption]. }
  assert (Hlook : own_lookup (countHosts ws) "undefined"
                  = Some (CNum (occurrences "undefined" ws))).
  { rewrite countHosts_lookup by reflexivity.
    destruct (Nat.eqb_spec (occurrences "undefined" ws) 0);
      [contradiction | reflexivity]. }
  split; [reflexivity |].
  split; [apply occurrences_undefined |].
  split; [lia |]. split; [| split].
  - apply In_rankHosts. simpl. apply own_lookup_In. assumption.
  - intros e He Hh. apply In_rankHosts in He.
    apply In_own_lookup in He; [| auto with tables].
    rewrite Hh, Hlook in He. destruct e as [k c]. simpl in *. congruence.
  - eapply Permutation_NoDup;
      [symmetry; apply hosts_rankHosts | auto with tables].
Qed.

Lemma missing_host_id_grouped_witness :
  (exists l, In l (data (createHandler listings_missing_host))
             /\ get l "host_id" = VUndefined)
  /\ exists (ranking : list HostEntry) (n : nat),
      hostRanking (computeHostRanking (createHandler listings_missing_host))
      = Some ranking
      /\ n = occurrences "undefined"
                         (data (createHandler listings_missing_host))
      /\ (List.length
            (List.filter
               (fun l => Value_eqb (get l "host_id") VUndefined)
               (data (createHandler listings_missing_host)))
          <= n)%nat
      /\ (1 <= n)%nat
      /\ In (mkHostEntry "undefined" (CNum n)) ranking
      /\ (forall e, In e ranking -> host e = "undefined"%string ->
                    e = mkHostEntry "undefined" (CNum n))
      /\ NoDup (map host ranking).
Proof.
  assert (H : exists l,
             In l (data (createHandler listings_missing_host))
             /\ get l "host_id" = VUndefined).
  { exists listing_no_host. split; [left; reflexivity | reflexivity]. }
  split; [exact H |].
  exact (missing_host_id_grouped (createHandler listings_missing_host) H).
Defined.

Example ranking_with_missing_host_id :
  hostRanking (computeHostRanking (createHandler listings_missing_host))
  = Some [mkHostEntry "undefined" (CNum 2); mkHostEntry "5" (CNum 1)].
Proof. vm_compute. reflexivity. Qed.

(** For a working set none of whose host keys names a property of
    [Object.prototype], the counts of the stored ranking are numbers that
    add up to the size of the working set, the ranking is sorted by count
    in descending order, and with pairwise distinct host keys every count
    is 1. *)
Theorem hostRanking_counts_regular :
  forall h : Handler,
    RegularHosts (data h) ->
    exists ranking : list HostEntry,
      hostRanking (computeHostRanking h) = Some ranking
      /\ Forall numeric ranking
      /\ list_sum (map numCount ranking) = List.length (data h)
      /\ StronglySorted (fun a b => (numCount b <= numCount a)%nat) ranking
      /\ (NoDup (map hostKey (data h)) ->
          forall e, In e ranking -> host_count e = CNum 1).
Proof.
  intros h Hreg. exists (rankHosts (data h)).
  split; [apply hostRanking_computed |].
  set (ws := data h) in *.
  split; [| split; [| split]].
  - eapply Permutation_Forall;
      [symmetry; apply rankHosts_perm | apply regular_numeric; assumption].
  - rewrite (list_sum_perm _ _
               (Permutation_map numCount (rankHosts_perm ws))).
    rewrite map_map. apply (tableSum_countHosts ws Hreg).
  - unfold rankHosts, Object_entries. auto with tables.
  - intros Hnd e He. apply In_rankHosts in He.
    destruct (regular_cells ws _ _ Hreg He) as [-> Hpos].
    pose proof (occurrences_NoDup ws (host e) Hnd).
    f_equal. lia.
Qed.

(** C6 fails on the code when a host id names a property that a fresh
    object inherits.  With the host id [__proto__] the assignment in the
    counting step reaches the inherited setter and stores nothing: the
    ranking of a one-listing working set is empty, and its counts add up
    to 0. *)
Theorem hostRanking_drops_proto_host :
  List.length (data (createHandler [listing_of_host "__proto__"])) = 1%nat
  /\ hostRanking
       (computeHostRanking (createHandler [listing_of_host "__proto__"]))
     = Some []
  /\ list_sum (map numCount (rankHosts [listing_of_host "__proto__"])) = 0%nat.
Proof.
  split; [reflexivity |]. split; vm_compute; reflexivity.
Qed.

(** With the host id [constructor] the read in the counting step finds
    the inherited function, and the count becomes a text. *)
Example hostRanking_text_count :
  rankHosts [listing_of_host "constructor"]
  = [mkHostEntry "constructor"
                 (CText "function Object() { [native code] }1")].
Proof. vm_compute. reflexivity. Qed.

Lemma StronglySorted_filter {A : Type} (R : A -> A -> Prop) (f : A -> bool)
      (l : list A) :
  StronglySorted R l -> StronglySorted R (List.filter f l).
Proof.
  induction 1 as [| x l Hs IH Hall]; simpl; [constructor |].
  destruct (f x); [| exact IH].
  constructor; [exact IH |].
  rewrite Forall_forall in *. intros y Hy. apply filter_In in Hy.
  apply Hall, Hy.
Qed.

Lemma filter_comm {A : Type} (f g : A -> bool) (l : list A) :
  List.filter f (List.filter g l) = List.filter g (List.filter f l).
Proof.
  induction l as [| x l IH]; simpl; [reflexivity |].
  destruct (f x) eqn:Ef, (g x) eqn:Eg; simpl;
    rewrite ?Ef, ?Eg, IH; reflexivity.
Qed.

(** In a table whose cells are the numbers of listings, the entries of
    count [n] are those of the keys with [n] listings. *)
Lemma tied_entries (ws : list Listing) (n : nat) (o : Obj) :
  (forall k c, In (k, c) o -> c = CNum (occurrences k ws)) ->
  map host (List.filter (hasCount (CNum n)) (map entryOf o))
  = List.filter (hasListings n ws) (keysOf o).
Proof.
  induction o as [| [k c] o IH]; intros H; [reflexivity |].
  pose proof (H k c (or_introl eq_refl)) as Hc.
  specialize (IH (fun k' c' Hin => H k' c' (or_intror Hin))).
  unfold keysOf in *. cbn [map List.filter fst].
  replace (hasCount (CNum n) (entryOf (k, c))) with (hasListings n ws k)
    by (rewrite Hc; reflexivity).
  destruct (hasListings n ws k); cbn [map]; rewrite IH; reflexivity.
Qed.

(** The entries of count [n] are determined by their hosts. *)
Lemma tied_entries_hosts (n : nat) (l : list HostEntry) :
  List.filter (hasCount (CNum n)) l
  = map (fun k => mkHostEntry k (CNum n)) (tiedHosts n l).
Proof.
  unfold tiedHosts. induction l as [| e l IH]; simpl; [reflexivity |].
  destruct (hasCount (CNum n) e) eqn:E; [| exact IH].
  simpl. rewrite <- IH. f_equal.
  unfold hasCount in E. destruct e as [k [m | t]]; simpl in *;
    [| discriminate].
  apply Nat.eqb_eq in E. subst. reflexivity.
Qed.

Lemma no_text_entries (t : string) (l : list HostEntry) :
  Forall numeric l -> List.filter (hasCount (CText t)) l = [].
Proof.
  induction 1 as [| e l [n Hn] _ IH]; simpl; [reflexivity |].
  unfold hasCount at 1. rewrite Hn. exact IH.
Qed.

Lemma tiedHosts_rankHosts (ws : list Listing) (n : nat) :
  RegularHosts ws ->
  tiedHosts n (rankHosts ws)
  = List.filter (hasListings n ws) (keysOf (countHosts ws)).
Proof.
  intros Hreg. unfold tiedHosts, rankHosts, Object_entries.
  rewrite sort_stable. apply tied_entries.
  intros k c Hin. apply (regular_cells ws k c Hreg Hin).
Qed.

(** C4, as stated, fails: two hosts with one listing each, met in the
    order 2, 1, are stored in the order 1, 2. *)
Lemma tie_order_counterexample :
  RegularHosts (data (createHandler listings_two_hosts))
  /\ firstOccurrences (map hostKey (data (createHandler listings_two_hosts)))
     = ["2"; "1"]%string
  /\ hostRanking (computeHostRanking (createHandler listings_two_hosts))
     = Some [mkHostEntry "1" (CNum 1); mkHostEntry "2" (CNum 1)]
  /\ ~ (exists ranking : list HostEntry,
          hostRanking (computeHostRanking (createHandler listings_two_hosts))
          = Some ranking
          /\ map host ranking
             = firstOccurrences
                 (map hostKey (data (createHandler listings_two_hosts)))).
Proof.
  split; [repeat constructor |].
  split; [vm_compute; reflexivity |].
  split; [vm_compute; reflexivity |].
  intros [ranking [Hr Hm]]. vm_compute in Hr. inversion Hr; subst.
  vm_compute in Hm. discriminate.
Qed.

(** C4, amended. For a handler none of whose host keys names a property
    of [Object.prototype], the ranking that [computeHostRanking] stores
    holds numeric counts and is sorted by count in descending order.  The
    hosts of the entries of one count are in the order of the keys of the
    counting table: the host keys that are array indices in ascending
    numeric order, then the other host keys in the order in which they are
    first met in the working set; they are the host keys with that many
    listings.  When no host key is an array index the hosts of one count
    are in the order of first occurrence.  The ranking is determined: it
    depends on the working set only, and it is the only list of numeric
    entries that is sorted by count and has these hosts, in this order,
    for each count. *)
Theorem hostRanking_tie_order :
  forall h : Handler,
    RegularHosts (data h) ->
    exists ranking : list HostEntry,
      hostRanking (computeHostRanking h) = Some ranking
      /\ Forall numeric ranking
      /\ StronglySorted (fun a b => (numCount b <= numCount a)%nat) ranking
      /\ (forall n : nat,
             StronglySorted keyOrder (tiedHosts n ranking)
             /\ List.filter notIndexKey (tiedHosts n ranking)
                = List.filter (hasListings n (data h))
                    (firstOccurrences
                       (List.filter notIndexKey (map hostKey (data h))))
             /\ (forall k, In k (tiedHosts n ranking)
                           <-> In k (map hostKey (data h))
                               /\ occurrences k (data h) = n))
      /\ (Forall (fun l => notIndexKey (hostKey l) = true) (data h) ->
          forall n : nat,
            tiedHosts n ranking
            = List.filter (hasListings n (data h))
                          (firstOccurrences (map hostKey (data h))))
      /\ (forall h' : Handler,
             data h' = data h ->
             hostRanking (computeHostRanking h') = Some ranking)
      /\ (forall ranking' : list HostEntry,
             Forall numeric ranking' ->
             StronglySorted (fun a b => (numCount b <= numCount a)%nat)
                            ranking' ->
             (forall n : nat, tiedHosts n ranking' = tiedHosts n ranking) ->
             ranking' = ranking).
Proof.
  intros h Hreg. exists (rankHosts (data h)).
  split; [apply hostRanking_computed |].
  set (ws := data h) in *.
  assert (Hnum : Forall numeric (rankHosts ws)).
  { eapply Permutation_Forall;
      [symmetry; apply rankHosts_perm | apply regular_numeric; assumption]. }
  assert (Hsorted : StronglySorted
                      (fun a b => (numCount b <= numCount a)%nat)
                      (rankHosts ws))
    by (apply sort_sorted; apply regular_numeric; assumption).
  split; [exact Hnum |]. split; [exact Hsorted |].
  split; [| split; [| split]].
  - intros n. rewrite (tiedHosts_rankHosts ws n Hreg).
    split; [| split].
    + apply StronglySorted_filter, countHosts_sorted.
    + rewrite filter_comm, (countHosts_named ws Hreg). reflexivity.
    + intros k. rewrite filter_In, (regular_keys ws k Hreg).
      unfold hasListings. rewrite Nat.eqb_eq. reflexivity.
  - intros Hn n. rewrite (tiedHosts_rankHosts ws n Hreg).
    rewrite (countHosts_first_occurrences ws Hreg Hn). reflexivity.
  - intros h' H'. rewrite hostRanking_computed, H'. reflexivity.
  - intros ranking' Hnum' Hs' Ht.
    apply sorted_stable_unique; try assumption.
    intros [n | t].
    + rewrite !tied_entries_hosts, Ht. reflexivity.
    + rewrite !no_text_entries by assumption. reflexivity.
Qed.

Lemma hostRanking_tie_order_witness :
  RegularHosts (data (createHandler listings_mixed_hosts))
  /\ exists ranking : list HostEntry,
      hostRanking (computeHostRanking (createHandler listings_mixed_hosts))
      = Some ranking
      /\ StronglySorted (fun a b => (numCount b <= numCount a)%nat) ranking
      /\ StronglySorted keyOrder (tiedHosts 1 ranking)
      /\ List.filter notIndexKey (tiedHosts 1 ranking)
         = List.filter
             (hasListings 1 (data (createHandler listings_mixed_hosts)))
             (firstOccurrences
                (List.filter
                   notIndexKey
                   (map hostKey
                        (data (createHandler listings_mixed_hosts))))).
Proof.
  assert (H : RegularHosts (data (createHandler listings_mixed_hosts)))
    by (repeat constructor).
  split; [exact H |].
  destruct (hostRanking_tie_order (createHandler listings_mixed_hosts) H)
    as [ranking [Hr [_ [Hs [Ht _]]]]].
  exists ranking. split; [exact Hr |]. split; [exact Hs |].
  destruct (Ht 1%nat) as [H1 [H2 _]].
  split; [exact H1 | exact H2].
Defined.

Example ranking_mixed_hosts :
  hostRanking (computeHostRanking (createHandler listings_mixed_hosts))
  = Some [mkHostEntry "10" (CNum 2); mkHostEntry "zeta" (CNum 2);
          mkHostEntry "9" (CNum 1); mkHostEntry "alpha" (CNum 1);
          mkHostEntry "undefined" (CNum 1)]
  /\ tiedHosts 1 [mkHostEntry "10" (CNum 2); mkHostEntry "zeta" (CNum 2);
                  mkHostEntry "9" (CNum 1); mkHostEntry "alpha" (CNum 1);
                  mkHostEntry "undefined" (CNum 1)]
     = ["9"; "alpha"; "undefined"]%string.
Proof. split; vm_compute; reflexivity. Qed.

(* ================================================================== *)
(** * Part V: further properties *)
(* ================================================================== *)

(** ** The order of numbers *)

Ltac compare_cases :=
  repeat match goal with
         | H : context [Z.compare ?a ?b] |- _ =>
             destruct (Z.compare_spec a b)
         | H : context [Pos.compare_cont Eq ?a ?b] |- _ =>
             change (Pos.compare_cont Eq a b) with (Pos.compare a b) in *;
             destruct (Pos.compare_spec a b)
         | |- context [Z.compare ?a ?b] =>
             destruct (Z.compare_spec a b)
         | |- context [Pos.compare_cont Eq ?a ?b] =>
             change (Pos.compare_cont Eq a b) with (Pos.compare a b) in *;
             destruct (Pos.compare_spec a b)
         end.

Lemma num_le_trans (x y z : number) :
  num_le x y = true -> num_le y z = true -> num_le x z = true.
Proof.
  unfold num_le, SFleb.
  destruct x as [sx | sx | | sx mx ex], y as [sy | sy | | sy my ey],
           z as [sz | sz | | sz mz ez]; simpl;
    try discriminate; try reflexivity;
    try (destruct sx, sy, sz; simpl; intros; try discriminate;
         try reflexivity; fail).
  destruct sx, sy, sz; simpl; try discriminate; try reflexivity;
    intros H1 H2; compare_cases; simpl in *;
    try discriminate; try reflexivity; subst; lia.
Qed.

(** ** Further properties of filter *)

Lemma filter_filter_andb {A : Type} (f g : A -> bool) (l : list A) :
  List.filter g (List.filter f l) = List.filter (fun x => f x && g x) l.
Proof.
  induction l as [| x l IH]; simpl; [reflexivity |].
  destruct (f x); simpl; [destruct (g x) |]; rewrite IH; reflexivity.
Qed.

Lemma filter_pointwise {A : Type} (f g : A -> bool) (l : list A) :
  (forall x, f x = g x) -> List.filter f l = List.filter g l.
Proof.
  intros H. induction l as [| x l IH]; simpl; [reflexivity |].
  rewrite H, IH. reflexivity.
Qed.

Lemma matches_unconstrained (c : Criteria) (l : Listing) :
  priceRange c = None ->
  unconstrained (rooms c) = true ->
  unconstrained (reviewScore c) = true ->
  matches c l = true.
Proof.
  intros Hp Hr Hs. rewrite matches_blocks.
  unfold checkPrice, checkRooms, checkReview. rewrite Hp.
  unfold unconstrained in Hr, Hs.
  destruct (rooms c) as [r |], (reviewScore c) as [s |];
    try (destruct (num_ToBoolean r); [discriminate |]);
    try (destruct (num_ToBoolean s); [discriminate |]); reflexivity.
Qed.

Lemma filter_unconstrained (c : Criteria) (h : Handler) :
  priceRange c = None ->
  unconstrained (rooms c) = true ->
  unconstrained (reviewScore c) = true ->
  filter c h = h.
Proof.
  intros Hp Hr Hs. unfold filter.
  rewrite (filter_all (matches c) (data h))
    by (intros; apply matches_unconstrained; assumption).
  destruct h; reflexivity.
Qed.

(** X1. Criteria with no price range and with thresholds that are absent,
    0 or NaN constrain nothing: [filter] returns the handler as it is. *)
Theorem filter_without_constraint :
  forall (c : Criteria) (h : Handler),
    priceRange c = None ->
    unconstrained (rooms c) = true ->
    unconstrained (reviewScore c) = true ->
    filter c h = h.
Proof. intros c h. apply filter_unconstrained. Qed.

Lemma filter_without_constraint_witness :
  priceRange (roomsOnly zero) = None
  /\ unconstrained (rooms (roomsOnly zero)) = true
  /\ unconstrained (reviewScore (roomsOnly zero)) = true
  /\ filter (roomsOnly zero) (createHandler [listing_minus_one_bedroom])
     = createHandler [listing_minus_one_bedroom].
Proof.
  split; [reflexivity |]. split; [reflexivity |]. split; [reflexivity |].
  apply (filter_without_constraint (roomsOnly zero)); reflexivity.
Defined.

(** X2. Two [filter] calls in a row keep the listings that match both
    criteria; the order of the two calls does not matter, and a repeated
    call changes nothing. *)
Theorem filter_composes :
  forall (c1 c2 : Criteria) (h : Handler),
    data (filter c2 (filter c1 h))
    = List.filter (fun l => matches c1 l && matches c2 l) (data h)
    /\ filter c2 (filter c1 h) = filter c1 (filter c2 h)
    /\ filter c1 (filter c1 h) = filter c1 h.
Proof.
  intros c1 c2 h. split; [| split].
  - simpl. apply filter_filter_andb.
  - unfold filter. simpl. f_equal.
    rewrite !filter_filter_andb. apply filter_pointwise.
    intros l. apply andb_comm.
  - unfold filter. simpl. f_equal.
    rewrite filter_filter_andb. apply filter_pointwise.
    intros l. destruct (matches c1 l); reflexivity.
Qed.

Lemma matches_empty_range (c : Criteria) (lo hi : number) (l : Listing) :
  priceRange c = Some (lo, hi) ->
  num_le lo hi = false ->
  matches c l = false.
Proof.
  intros Hc Hle. rewrite matches_blocks. unfold checkPrice. rewrite Hc. simpl.
  destruct (num_ge (parseFloat (get l "price")) lo) eqn:H1;
    [| reflexivity].
  destruct (num_le (parseFloat (get l "price")) hi) eqn:H2;
    [| reflexivity].
  unfold num_ge in H1. fold (num_le lo (parseFloat (get l "price"))) in H1.
  rewrite (num_le_trans _ _ _ H1 H2) in Hle. discriminate.
Qed.

(** X3. A price range whose minimum is not at most its maximum, because
    the bounds are inverted or one of them is NaN, matches no listing:
    [filter] leaves an empty working set. *)
Theorem empty_price_range :
  forall (c : Criteria) (lo hi : number) (h : Handler),
    priceRange c = Some (lo, hi) ->
    num_le lo hi = false ->
    data (filter c h) = [].
Proof.
  intros c lo hi h Hc Hle. simpl. apply filter_none. intros l _.
  apply (matches_empty_range c lo hi l Hc Hle).
Qed.

Lemma empty_price_range_witness :
  priceRange (priceOnly (num_of_Z 100) (num_of_Z 50))
  = Some (num_of_Z 100, num_of_Z 50)
  /\ num_le (num_of_Z 100) (num_of_Z 50) = false
  /\ data (filter (priceOnly (num_of_Z 100) (num_of_Z 50))
                  (createHandler [listing_of_numbers "75" "1"]))
     = [].
Proof.
  split; [reflexivity |]. split; [reflexivity |].
  apply (empty_price_range (priceOnly (num_of_Z 100) (num_of_Z 50))
                           (num_of_Z 100) (num_of_Z 50));
    reflexivity.
Defined.

(** X4. A listing whose review score is missing or is not a numeral
    passes the review block exactly when the minimum is NaN or at most 0;
    a minimum above 0 removes it from the working set. *)
Theorem unrated_listing_review :
  forall (c : Criteria) (r : number) (l : Listing),
    reviewScore c = Some r ->
    parseFloat (get l "review_scores_rating") = NaN ->
    (checkReview c l true = true
     <-> num_isNaN r = true \/ num_le r zero = true)
    /\ (num_isNaN r = false -> num_le r zero = false ->
        forall h, ~ In l (data (filter c h))).
Proof.
  intros c r l Hc Hl.
  assert (Hb : checkReview c l true
               = num_isNaN r || num_le r zero).
  { unfold checkReview. rewrite Hc, Hl. unfold num_ge, num_le.
    destruct r as [s | s | | s m e]; try reflexivity. }
  split.
  - rewrite Hb, orb_true_iff. reflexivity.
  - intros Hn Hle h Hin. simpl in Hin. apply filter_In in Hin.
    destruct Hin as [_ Hm]. rewrite matches_blocks, Hb, Hn, Hle in Hm.
    rewrite andb_false_r in Hm. discriminate.
Qed.

Lemma unrated_listing_review_witness :
  reviewScore (mkCriteria None None (Some (num_of_Z 4))) = Some (num_of_Z 4)
  /\ parseFloat (get listing_no_host "review_scores_rating") = NaN
  /\ num_isNaN (num_of_Z 4) = false
  /\ num_le (num_of_Z 4) zero = false
  /\ ~ In listing_no_host
          (data (filter (mkCriteria None None (Some (num_of_Z 4)))
                        (createHandler [listing_no_host]))).
Proof.
  split; [reflexivity |]. split; [reflexivity |].
  split; [reflexivity |]. split; [reflexivity |].
  apply (proj2 (unrated_listing_review
                  (mkCriteria None None (Some (num_of_Z 4)))
                  (num_of_Z 4) listing_no_host eq_refl eq_refl));
    reflexivity.
Defined.

(** ** Further properties of pinning *)

Lemma pinnedIds_pinListing (v : Value) (h : Handler) :
  pinnedIds (pinListing v h)
  = if arr_includes (pinnedIds h) v then pinnedIds h
    else (pinnedIds h ++ [v])%list.
Proof.
  unfold pinListing. simpl.
  destruct (arr_includes (pinnedIds h) v); reflexivity.
Qed.

Lemma pinnedIds_call (h : Handler) (c : Call) :
  pinnedIds (call h c)
  = match c with
    | CallPinListing v => pinnedIds (pinListing v h)
    | _ => pinnedIds h
    end.
Proof. destruct c; reflexivity. Qed.

Lemma calls_snoc (cs : list Call) (c : Call) (h : Handler) :
  calls (cs ++ [c]) h = call (calls cs h) c.
Proof. unfold calls. apply fold_left_snoc. Qed.

Lemma calls_app (cs cs' : list Call) (h : Handler) :
  calls (cs ++ cs') h = calls cs' (calls cs h).
Proof. unfold calls. apply fold_left_app. Qed.

(** X5. Pinning an id twice is the same as pinning it once, and after any
    sequence of calls on a new handler the pinned-id list has no
    duplicates and holds exactly the ids that were passed to
    [pinListing]. *)
Theorem pinned_ids_are_a_set :
  (forall (v : Value) (h : Handler),
      pinListing v (pinListing v h) = pinListing v h)
  /\ (forall (listings : list Listing) (cs : list Call),
         NoDup (pinnedIds (calls cs (createHandler listings)))
         /\ forall v, In v (pinnedIds (calls cs (createHandler listings)))
                      <-> In (CallPinListing v) cs).
Proof.
  split.
  - intros v h. unfold pinListing. simpl.
    destruct (arr_includes (pinnedIds h) v) eqn:E; simpl.
    + rewrite E. reflexivity.
    + assert (Hin : arr_includes (pinnedIds h ++ [v]) v = true).
      { apply arr_includes_In. apply in_or_app. right. left. reflexivity. }
      rewrite Hin. reflexivity.
  - intros listings cs. induction cs as [| c cs IH] using rev_ind.
    + split; [constructor |]. intros v. simpl. tauto.
    + destruct IH as [Hnd Hin]. rewrite calls_snoc, pinnedIds_call.
      destruct c; try (split; [assumption |]; intros v; rewrite Hin,
                       in_app_iff; simpl; split;
                       [tauto | intros [H | [H | []]];
                                [assumption | discriminate]]).
      rewrite pinnedIds_pinListing.
      destruct (arr_includes (pinnedIds (calls cs (createHandler listings)))
                             listingId) eqn:E.
      * split; [assumption |]. intros v. rewrite Hin, in_app_iff. simpl.
        split; [tauto |]. intros [H | [H | []]]; [assumption |].
        inversion H; subst. apply Hin. apply arr_includes_In. assumption.
      * split.
        -- apply NoDup_app; [assumption | constructor; [intros [] |
                                                        constructor] |].
           intros x Hx [<- | []]. apply arr_includes_In in Hx.
           congruence.
        -- intros v. rewrite !in_app_iff, Hin. simpl.
           split; [intros [H | [<- | []]]; auto |].
           intros [H | [H | []]]; [auto |]. inversion H. auto.
Qed.

(** X6. The pinned-id list only grows at its end: whatever calls follow,
    the ids pinned so far stay, in their order, at the front. *)
Theorem pinned_ids_only_grow :
  forall (cs cs' : list Call) (h : Handler),
    exists more,
      pinnedIds (calls (cs ++ cs') h)
      = (pinnedIds (calls cs h) ++ more)%list.
Proof.
  intros cs cs' h. rewrite calls_app. generalize (calls cs h) as h0.
  induction cs' as [| c cs' IH] using rev_ind; intros h0.
  - exists []. rewrite app_nil_r. reflexivity.
  - destruct (IH h0) as [more Hm]. rewrite calls_snoc, pinnedIds_call.
    destruct c; try (exists more; assumption).
    rewrite pinnedIds_pinListing, Hm.
    destruct (arr_includes (pinnedIds h0 ++ more) listingId).
    + exists more. reflexivity.
    + exists (more ++ [listingId])%list. rewrite app_assoc. reflexivity.
Qed.

Lemma isPinned_members (p1 p2 : list Value) (l : Listing) :
  (forall v, In v p1 <-> In v p2) -> isPinned p1 l = isPinned p2 l.
Proof.
  intros H. unfold isPinned. f_equal.
  destruct (arr_includes p1 (get l "id")) eqn:E1,
           (arr_includes p2 (get l "id")) eqn:E2; try reflexivity.
  - apply arr_includes_In in E1. apply H in E1.
    apply arr_includes_In in E1. congruence.
  - apply arr_includes_In in E2. apply H in E2.
    apply arr_includes_In in E2. congruence.
Qed.

(** X7. The output view depends on the pinned ids as a set: two handlers
    with the same working set and the same pinned ids, pinned in any
    order, have the same pinned listings and the same [getData]. *)
Theorem view_ignores_pin_order :
  forall h1 h2 : Handler,
    data h1 = data h2 ->
    (forall v, In v (pinnedIds h1) <-> In v (pinnedIds h2)) ->
    getPinnedListings h1 = getPinnedListings h2
    /\ getData h1 = getData h2.
Proof.
  intros h1 h2 Hd Hp.
  assert (H1 : getPinnedListings h1 = getPinnedListings h2).
  { unfold getPinnedListings. rewrite Hd. apply filter_pointwise.
    intros l. apply isPinned_members. assumption. }
  split; [exact H1 |].
  rewrite !getData_split, H1, Hd. f_equal. apply filter_pointwise.
  intros l. rewrite !isNotPinned_negb. f_equal.
  apply isPinned_members. assumption.
Qed.

Lemma view_ignores_pin_order_witness :
  data (pinListing (VString "B")
          (pinListing (VString "A") (createHandler [listing_of_id "A"])))
  = data (pinListing (VString "A")
            (pinListing (VString "B") (createHandler [listing_of_id "A"])))
  /\ getData (pinListing (VString "B")
                (pinListing (VString "A") (createHandler [listing_of_id "A"])))
     = getData (pinListing (VString "A")
                  (pinListing (VString "B")
                     (createHandler [listing_of_id "A"]))).
Proof.
  split; [reflexivity |].
  apply (view_ignores_pin_order
           (pinListing (VString "B")
              (pinListing (VString "A") (createHandler [listing_of_id "A"])))
           (pinListing (VString "A")
              (pinListing (VString "B") (createHandler [listing_of_id "A"])))).
  - reflexivity.
  - intros v. simpl. tauto.
Defined.

(** X8. The view commutes with filtering: the pinned listings and the
    output of [getData] after a [filter] are those before it, filtered.
    A pinned id whose listing is filtered out pins nothing. *)
Theorem view_commutes_with_filter :
  forall (c : Criteria) (h : Handler),
    getPinnedListings (filter c h)
    = List.filter (matches c) (getPinnedListings h)
    /\ getData (filter c h) = List.filter (matches c) (getData h).
Proof.
  intros c h.
  assert (H1 : getPinnedListings (filter c h)
               = List.filter (matches c) (getPinnedListings h)).
  { unfold getPinnedListings. simpl. rewrite !filter_filter_andb.
    apply filter_pointwise. intros l. apply andb_comm. }
  split; [exact H1 |].
  rewrite !getData_split, H1, filter_app. f_equal. simpl.
  rewrite !filter_filter_andb. apply filter_pointwise.
  intros l. apply andb_comm.
Qed.

(** X9. When no listing of the working set is pinned, or every listing
    is, [getData] returns the working set in its own order. *)
Theorem view_unchanged_by_idle_pins :
  forall h : Handler,
    (forall l, In l (data h) -> ~ PinnedRecord h l)
    \/ (forall l, In l (data h) -> PinnedRecord h l) ->
    getData h = data h.
Proof.
  intros h [Hn | Ha]; rewrite getData_split; unfold getPinnedListings.
  - rewrite filter_none, filter_all; [reflexivity | |].
    + intros l Hl. rewrite isNotPinned_negb.
      destruct (isPinned (pinnedIds h) l) eqn:E; [| reflexivity].
      exfalso. apply (Hn l Hl). apply isPinned_PinnedRecord. assumption.
    + intros l Hl. destruct (isPinned (pinnedIds h) l) eqn:E; [| reflexivity].
      exfalso. apply (Hn l Hl). apply isPinned_PinnedRecord. assumption.
  - rewrite filter_all, filter_none; [apply app_nil_r | |].
    + intros l Hl. rewrite isNotPinned_negb.
      rewrite (proj2 (isPinned_PinnedRecord h l) (Ha l Hl)). reflexivity.
    + intros l Hl. apply isPinned_PinnedRecord. apply Ha. assumption.
Qed.

Lemma view_unchanged_by_idle_pins_witness :
  (forall l,
      In l (data (pinListing (VString "Z") (createHandler [listing_of_id "A"]))) ->
      ~ PinnedRecord
          (pinListing (VString "Z") (createHandler [listing_of_id "A"])) l)
  /\ getData (pinListing (VString "Z") (createHandler [listing_of_id "A"]))
     = data (pinListing (VString "Z") (createHandler [listing_of_id "A"])).
Proof.
  assert (H : forall l,
             In l (data (pinListing (VString "Z")
                           (createHandler [listing_of_id "A"]))) ->
             ~ PinnedRecord
                 (pinListing (VString "Z") (createHandler [listing_of_id "A"]))
                 l).
  { intros l [<- | []] [_ Hin]. simpl in Hin.
    destruct Hin as [Hin | []]. discriminate. }
  split; [exact H |].
  apply (view_unchanged_by_idle_pins
           (pinListing (VString "Z") (createHandler [listing_of_id "A"]))).
  left. exact H.
Defined.

(** ** Further properties of the derived values *)

(** X10. The stats snapshot is changed by [computeStats] only and the
    host ranking by [computeHostRanking] only: after any other calls,
    [filter] included, they are what they were, and so describe the
    working set they were computed from, not the current one. *)
Theorem derived_values_persist :
  forall (cs : list Call) (h : Handler),
    (~ In CallComputeStats cs ->
     stats (calls cs (computeStats h)) = stats (computeStats h))
    /\ (~ In CallComputeHostRanking cs ->
        hostRanking (calls cs (computeHostRanking h))
        = hostRanking (computeHostRanking h)).
Proof.
  intros cs h. split; intros Hn.
  - generalize (computeStats h) as h0.
    induction cs as [| c cs IH] using rev_ind; intros h0; [reflexivity |].
    rewrite calls_snoc.
    assert (Hc : c <> CallComputeStats)
      by (intros ->; apply Hn; apply in_or_app; right; left; reflexivity).
    transitivity (stats (calls cs h0));
      [| apply IH; intros H; apply Hn; apply in_or_app; left; exact H].
    destruct c; try reflexivity. congruence.
  - generalize (computeHostRanking h) as h0.
    induction cs as [| c cs IH] using rev_ind; intros h0; [reflexivity |].
    rewrite calls_snoc.
    assert (Hc : c <> CallComputeHostRanking)
      by (intros ->; apply Hn; apply in_or_app; right; left; reflexivity).
    transitivity (hostRanking (calls cs h0));
      [| apply IH; intros H; apply Hn; apply in_or_app; left; exact H].
    destruct c; try reflexivity. congruence.
Qed.

Lemma derived_values_persist_witness :
  ~ In CallComputeStats [CallFilter (roomsOnly (num_of_Z 2))]
  /\ stats (calls [CallFilter (roomsOnly (num_of_Z 2))]
                  (computeStats
                     (createHandler [listing_of_numbers "100" "1"])))
     = stats (computeStats (createHandler [listing_of_numbers "100" "1"]))
  /\ data (calls [CallFilter (roomsOnly (num_of_Z 2))]
                 (computeStats
                    (createHandler [listing_of_numbers "100" "1"])))
     = [].
Proof.
  assert (H : ~ In CallComputeStats [CallFilter (roomsOnly (num_of_Z 2))]).
  { intros [H | []]. discriminate. }
  split; [exact H |]. split; [| vm_compute; reflexivity].
  exact (proj1 (derived_values_persist
                  [CallFilter (roomsOnly (num_of_Z 2))]
                  (createHandler [listing_of_numbers "100" "1"])) H).
Defined.

Lemma totalBedrooms_zero (ws : list Listing) :
  Forall (fun l => num_ToBoolean (bedroomsOf l) = false) ws ->
  totalBedrooms ws = zero.
Proof.
  unfold totalBedrooms. induction 1 as [| l ws Hl _ IH]; simpl.
  - reflexivity.
  - fold (bedroomsOf l). unfold num_or. rewrite Hl. exact IH.
Qed.

(** X11. When the bedrooms of every listing are missing, unparsable or 0,
    the average is 0 whatever the prices are: the division is not
    made. *)
Theorem average_without_bedrooms :
  forall h : Handler,
    Forall (fun l => num_ToBoolean (bedroomsOf l) = false) (data h) ->
    stats (computeStats h) = Some (mkStats (List.length (data h)) zero).
Proof.
  intros h H. unfold computeStats. simpl.
  rewrite (totalBedrooms_zero (data h) H). reflexivity.
Qed.

Lemma average_without_bedrooms_witness :
  Forall (fun l => num_ToBoolean (bedroomsOf l) = false)
         (data (createHandler [listing_of_numbers "120" "studio";
                               listing_of_numbers "80" "0"]))
  /\ stats (computeStats
              (createHandler [listing_of_numbers "120" "studio";
                              listing_of_numbers "80" "0"]))
     = Some (mkStats 2 zero).
Proof.
  assert (H : Forall (fun l => num_ToBoolean (bedroomsOf l) = false)
                     (data (createHandler
                              [listing_of_numbers "120" "studio";
                               listing_of_numbers "80" "0"]))).
  { repeat constructor. }
  split; [exact H |].
  exact (average_without_bedrooms
           (createHandler [listing_of_numbers "120" "studio";
                           listing_of_numbers "80" "0"]) H).
Defined.

(** ** Further properties of the ranking *)

Lemma rankHosts_entry (ws : list Listing) (k : string) :
  inheritedKey k = false ->
  In k (map hostKey ws) ->
  In (mkHostEntry k (CNum (occurrences k ws))) (rankHosts ws).
Proof.
  intros Hk Hin. apply In_rankHosts. simpl. apply own_lookup_In.
  rewrite (countHosts_lookup ws k Hk).
  apply occurrences_In in Hin.
  destruct (Nat.eqb_spec (occurrences k ws) 0); [contradiction | reflexivity].
Qed.

Lemma rankHosts_entry_unique (ws : list Listing) (e1 e2 : HostEntry) :
  In e1 (rankHosts ws) -> In e2 (rankHosts ws) -> host e1 = host e2 ->
  e1 = e2.
Proof.
  intros H1 H2 Hh. apply In_rankHosts in H1, H2.
  apply In_own_lookup in H1, H2; try apply NoDup_keysOf_countHosts.
  rewrite Hh, H2 in H1. inversion H1.
  destruct e1 as [k1 c1], e2 as [k2 c2]. simpl in *. subst. reflexivity.
Qed.

Lemma NoDup_hosts_rankHosts (ws : list Listing) :
  NoDup (map host (rankHosts ws)).
Proof.
  eapply Permutation_NoDup;
    [symmetry; apply hosts_rankHosts | apply NoDup_keysOf_countHosts].
Qed.

(** X12. Whatever the other host ids are, a host id that does not name a
    property of [Object.prototype] and occurs in the working set has
    exactly one entry in the ranking that [computeHostRanking] stores, and
    the count of that entry is the number of listings with that host
    id. *)
Theorem host_count_is_exact :
  forall (h : Handler) (k : string),
    inheritedKey k = false ->
    In k (map hostKey (data h)) ->
    exists ranking : list HostEntry,
      hostRanking (computeHostRanking h) = Some ranking
      /\ In (mkHostEntry k (CNum (occurrences k (data h)))) ranking
      /\ (forall e, In e ranking -> host e = k ->
                    e = mkHostEntry k (CNum (occurrences k (data h))))
      /\ NoDup (map host ranking)
      /\ (1 <= occurrences k (data h))%nat.
Proof.
  intros h k Hk Hin. exists (rankHosts (data h)).
  split; [apply hostRanking_computed |].
  pose proof (rankHosts_entry (data h) k Hk Hin) as He.
  split; [exact He |]. split; [| split].
  - intros e Hin' Hh.
    apply (rankHosts_entry_unique (data h)); assumption.
  - apply NoDup_hosts_rankHosts.
  - apply occurrences_In in Hin. lia.
Qed.

Lemma host_count_is_exact_witness :
  inheritedKey "zeta" = false
  /\ In "zeta"%string
        (map hostKey (data (createHandler listings_mixed_hosts)))
  /\ occurrences "zeta" (data (createHandler listings_mixed_hosts)) = 2%nat
  /\ exists ranking : list HostEntry,
      hostRanking (computeHostRanking (createHandler listings_mixed_hosts))
      = Some ranking
      /\ In (mkHostEntry "zeta" (CNum 2)) ranking
      /\ NoDup (map host ranking).
Proof.
  assert (H : In "zeta"%string
                 (map hostKey (data (createHandler listings_mixed_hosts))))
    by (left; reflexivity).
  split; [reflexivity |]. split; [exact H |]. split; [reflexivity |].
  destruct (host_count_is_exact (createHandler listings_mixed_hosts) "zeta"
              eq_refl H) as [ranking [Hr [He [_ [Hn _]]]]].
  exists ranking. split; [exact Hr |]. split; [exact He | exact Hn].
Defined.

Lemma countHosts_no_proto (ws : list Listing) :
  own_lookup (countHosts ws) "__proto__" = None.
Proof.
  induction ws as [| l ws IH] using rev_ind; [reflexivity |].
  rewrite countHosts_snoc. unfold countHost.
  destruct (String.eqb_spec (hostKey l) "__proto__") as [-> | Hne].
  - unfold obj_set. rewrite IH. simpl. exact IH.
  - rewrite own_lookup_set_other by assumption. exact IH.
Qed.

Lemma countHost_proto (ws : list Listing) (l : Listing) :
  isProtoAccessor (hostKey l) = true ->
  countHost (countHosts ws) l = countHosts ws.
Proof.
  intros H. unfold isProtoAccessor in H. apply String.eqb_eq in H.
  unfold countHost, obj_set. rewrite H, countHosts_no_proto. reflexivity.
Qed.

Lemma countHosts_app (ws ws' : list Listing) :
  countHosts (ws ++ ws') = fold_left countHost ws' (countHosts ws).
Proof. unfold countHosts. apply fold_left_app. Qed.

(** X13. Listings whose host id is [__proto__] are invisible to the
    ranking: the ranking is that of the working set without them, and no
    entry has that host. *)
Theorem proto_host_is_invisible :
  forall ws : list Listing,
    rankHosts ws
    = rankHosts
        (List.filter (fun l => negb (isProtoAccessor (hostKey l))) ws)
    /\ ~ In "__proto__"%string (map host (rankHosts ws)).
Proof.
  intros ws. split.
  - unfold rankHosts. f_equal. f_equal. unfold Object_entries.
    induction ws as [| l ws IH] using rev_ind; [reflexivity |].
    rewrite filter_app, countHosts_snoc. simpl.
    destruct (isProtoAccessor (hostKey l)) eqn:E; simpl.
    + rewrite app_nil_r, <- IH. apply countHost_proto. assumption.
    + rewrite countHosts_snoc, IH. reflexivity.
  - intros H. apply (Permutation_in _ (hosts_rankHosts ws)) in H.
    apply (proj1 (own_lookup_None (countHosts ws) "__proto__")
                 (countHosts_no_proto ws)).
    exact H.
Qed.

Lemma firstOccurrences_In (l : list string) (k : string) :
  In k (firstOccurrences l) <-> In k l.
Proof.
  induction l as [| a l IH]; simpl; [tauto |].
  rewrite filter_In, IH, negb_true_iff, String.eqb_neq.
  destruct (string_dec a k) as [-> | Hne]; [tauto |].
  split; [tauto |]. intros [H | H]; [contradiction |].
  right. split; [assumption | congruence].
Qed.

Lemma firstOccurrences_NoDup (l : list string) :
  NoDup (firstOccurrences l).
Proof.
  induction l as [| a l IH]; simpl; constructor.
  - rewrite filter_In, negb_true_iff, String.eqb_neq. intros [_ H]. auto.
  - apply NoDup_filter. assumption.
Qed.

Lemma rankHosts_length (ws : list Listing) :
  (List.length (rankHosts ws) <= List.length ws)%nat.
Proof.
  rewrite <- (length_map host), (Permutation_length (hosts_rankHosts ws)).
  rewrite <- (length_map hostKey ws).
  apply NoDup_incl_length; [apply NoDup_keysOf_countHosts |].
  intros k. apply keysOf_countHosts_hosts.
Qed.

Lemma rankHosts_hosts (ws : list Listing) :
  RegularHosts ws ->
  Permutation (map host (rankHosts ws)) (firstOccurrences (map hostKey ws)).
Proof.
  intros Hreg. rewrite hosts_rankHosts.
  apply NoDup_Permutation;
    [apply NoDup_keysOf_countHosts | apply firstOccurrences_NoDup |].
  intros k. rewrite firstOccurrences_In. apply regular_keys.
  assumption.
Qed.

Lemma rankHosts_nil (ws : list Listing) :
  RegularHosts ws -> (rankHosts ws = [] <-> ws = []).
Proof.
  intros Hreg. pose proof (rankHosts_hosts ws Hreg) as Hp. split.
  - intros E. rewrite E in Hp. simpl in Hp.
    apply Permutation_nil in Hp.
    destruct ws as [| l ws]; [reflexivity | discriminate].
  - intros ->. reflexivity.
Qed.

(** X14. The ranking that [computeHostRanking] stores is never longer
    than the working set, and for a working set none of whose host keys
    names a property of [Object.prototype] it has one entry for each
    distinct host key; it is empty only for the empty working set. *)
Theorem one_entry_per_host :
  forall h : Handler,
    exists ranking : list HostEntry,
      hostRanking (computeHostRanking h) = Some ranking
      /\ (List.length ranking <= List.length (data h))%nat
      /\ (RegularHosts (data h) ->
          Permutation (map host ranking)
                      (firstOccurrences (map hostKey (data h)))
          /\ (ranking = [] <-> data h = [])).
Proof.
  intros h. exists (rankHosts (data h)).
  split; [apply hostRanking_computed |].
  split; [apply rankHosts_length |].
  intros Hreg. split; [apply rankHosts_hosts | apply rankHosts_nil];
    assumption.
Qed.

Lemma one_entry_per_host_witness :
  RegularHosts (data (createHandler listings_mixed_hosts))
  /\ exists ranking : list HostEntry,
      hostRanking (computeHostRanking (createHandler listings_mixed_hosts))
      = Some ranking
      /\ Permutation
           (map host ranking)
           (firstOccurrences
              (map hostKey (data (createHandler listings_mixed_hosts)))).
Proof.
  assert (H : RegularHosts (data (createHandler listings_mixed_hosts)))
    by (repeat constructor).
  split; [exact H |].
  destruct (one_entry_per_host (createHandler listings_mixed_hosts))
    as [ranking [Hr [_ Hp]]].
  exists ranking. split; [exact Hr | exact (proj1 (Hp H))].
Defined.

(** X15. For a non-empty working set none of whose host keys names a
    property of [Object.prototype], the ranking that [computeHostRanking]
    stores has a first entry; its count is the number of listings of its
    host, and no host has more listings. *)
Theorem first_entry_is_largest :
  forall h : Handler,
    RegularHosts (data h) ->
    data h <> [] ->
    exists (e : HostEntry) (others : list HostEntry),
      hostRanking (computeHostRanking h) = Some (e :: others)
      /\ In (host e) (map hostKey (data h))
      /\ host_count e = CNum (occurrences (host e) (data h))
      /\ forall k, (occurrences k (data h) <= numCount e)%nat.
Proof.
  intros h Hreg Hne.
  destruct (rankHosts (data h)) as [| e others] eqn:Hr.
  { exfalso. apply Hne. apply (rankHosts_nil (data h) Hreg). exact Hr. }
  exists e, others.
  split; [rewrite hostRanking_computed, Hr; reflexivity |].
  assert (He : In (host e, host_count e) (countHosts (data h))).
  { apply In_rankHosts. rewrite Hr. left. reflexivity. }
  destruct (regular_cells (data h) _ _ Hreg He) as [Hc _].
  split; [| split; [exact Hc |]].
  { apply keysOf_countHosts_hosts. apply (in_map fst) in He. exact He. }
  intros k.
  destruct (Nat.eq_dec (occurrences k (data h)) 0) as [-> | Hk]; [lia |].
  apply occurrences_In in Hk.
  assert (Hreg' : inheritedKey k = false).
  { apply in_map_iff in Hk. destruct Hk as [l [<- Hl]].
    unfold RegularHosts in Hreg. rewrite Forall_forall in Hreg.
    apply Hreg. assumption. }
  pose proof (rankHosts_entry (data h) k Hreg' Hk) as Hin.
  assert (Hs : StronglySorted (fun a b => (numCount b <= numCount a)%nat)
                              (rankHosts (data h))).
  { unfold rankHosts, Object_entries. apply sort_sorted.
    apply regular_numeric. assumption. }
  rewrite Hr in Hs, Hin.
  apply (sorted_head_max e others _ Hs Hin).
Qed.

Lemma first_entry_is_largest_witness :
  RegularHosts (data (createHandler listings_mixed_hosts))
  /\ data (createHandler listings_mixed_hosts) <> []
  /\ exists (e : HostEntry) (others : list HostEntry),
      hostRanking (computeHostRanking (createHandler listings_mixed_hosts))
      = Some (e :: others)
      /\ e = mkHostEntry "10" (CNum 2)
      /\ (occurrences "alpha" (data (createHandler listings_mixed_hosts))
          <= numCount e)%nat.
Proof.
  assert (H : RegularHosts (data (createHandler listings_mixed_hosts)))
    by (repeat constructor).
  assert (N : data (createHandler listings_mixed_hosts) <> [])
    by discriminate.
  split; [exact H |]. split; [exact N |].
  destruct (first_entry_is_largest (createHandler listings_mixed_hosts) H N)
    as [e [others [Hr [_ [_ Hmax]]]]].
  exists e, others. split; [exact Hr |].
  split; [| exact (Hmax "alpha"%string)].
  vm_compute in Hr. inversion Hr. reflexivity.
Defined.

(** ** The encoding is unambiguous *)

Lemma quoteField_text (m : Member) :
  quoteField m = quoteField (MValue (VString (fieldText m))).
Proof. destruct m as [[| | s] | k |]; reflexivity. Qed.

Lemma needsQuotes_cons (c : ascii) (s : string) :
  needsQuotes (String c s) = false ->
  c <> comma /\ c <> dquote /\ needsQuotes s = false.
Proof.
  unfold needsQuotes. intros H.
  apply orb_false_iff in H. destruct H as [H Hn].
  apply orb_false_iff in H. destruct H as [Hc Hq].
  assert (F : forall x, includes (String c s) (str1 x) = false ->
                        c <> x /\ includes s (str1 x) = false).
  { intros x Hx. split.
    - intros ->.
      assert (E : includes (String x s) (str1 x) = true)
        by (apply includes_char; left; reflexivity).
      congruence.
    - destruct (includes s (str1 x)) eqn:E; [| reflexivity].
      apply includes_char in E.
      assert (E' : includes (String c s) (str1 x) = true)
        by (apply includes_char; right; exact E).
      congruence. }
  destruct (F _ Hc) as [H1 H1'], (F _ Hq) as [H2 H2'], (F _ Hn) as [_ H3'].
  rewrite H1', H2', H3'. auto.
Qed.

Lemma fieldEnd_head (c : ascii) (r : string) :
  fieldEnd (String c r) -> c = comma.
Proof. intros [H | [r' H]]; [discriminate | inversion H; reflexivity]. Qed.

(** Two unquoted fields. *)
Lemma plain_fields (a : string) :
  forall (b X Y : string),
    needsQuotes a = false -> needsQuotes b = false ->
    fieldEnd X -> fieldEnd Y ->
    (a ++ X)%string = (b ++ Y)%string -> a = b /\ X = Y.
Proof.
  induction a as [| c a IH]; intros b X Y Ha Hb HX HY E.
  - destruct b as [| d b]; [auto |]. simpl in E. subst X.
    apply fieldEnd_head in HX. apply needsQuotes_cons in Hb.
    destruct Hb as [Hd _]. contradiction.
  - apply needsQuotes_cons in Ha. destruct Ha as [Hc [_ Ha]].
    destruct b as [| d b]; simpl in E.
    + subst Y. apply fieldEnd_head in HY. contradiction.
    + inversion E; subst. apply needsQuotes_cons in Hb.
      destruct Hb as [_ [_ Hb]].
      destruct (IH b X Y Ha Hb HX HY ltac:(assumption)) as [-> ->]. auto.
Qed.

(** Two quoted fields, after their opening quotes. *)
Lemma quoted_fields (a : string) :
  forall (b X Y : string),
    fieldEnd X -> fieldEnd Y ->
    (replaceQuotes a ++ String dquote X)%string
    = (replaceQuotes b ++ String dquote Y)%string ->
    a = b /\ X = Y.
Proof.
  assert (Hq : forall X, fieldEnd X -> forall r, X <> String dquote r).
  { intros X HX r ->. apply fieldEnd_head in HX. discriminate. }
  induction a as [| c a IH]; intros b X Y HX HY E; simpl in E.
  - destruct b as [| d b]; simpl in E.
    + inversion E. auto.
    + destruct (Ascii.eqb_spec d dquote) as [-> | Hd]; simpl in E.
      * inversion E. exfalso. eapply (Hq X HX). eassumption.
      * inversion E. congruence.
  - destruct (Ascii.eqb_spec c dquote) as [-> | Hc]; simpl in E.
    + destruct b as [| d b]; simpl in E.
      * inversion E. exfalso. eapply (Hq Y HY). symmetry. eassumption.
      * destruct (Ascii.eqb_spec d dquote) as [-> | Hd]; simpl in E.
        -- inversion E.
           destruct (IH b X Y HX HY ltac:(assumption)) as [-> ->]. auto.
        -- inversion E. congruence.
    + destruct b as [| d b]; simpl in E.
      * inversion E. congruence.
      * destruct (Ascii.eqb_spec d dquote) as [-> | Hd]; simpl in E.
        -- inversion E. congruence.
        -- inversion E; subst.
           destruct (IH b X Y HX HY ltac:(assumption)) as [-> ->]. auto.
Qed.

(** A field is read off the front of a line in one way only. *)
Lemma field_prefix_unique (a b X Y : string) :
  fieldEnd X -> fieldEnd Y ->
  (quoteField (MValue (VString a)) ++ X)%string
  = (quoteField (MValue (VString b)) ++ Y)%string ->
  a = b /\ X = Y.
Proof.
  intros HX HY. rewrite !quoteField_string.
  destruct (needsQuotes a) eqn:Ha, (needsQuotes b) eqn:Hb; simpl; intros E.
  - inversion E as [E']. rewrite !append_assoc in E'. simpl in E'.
    apply (quoted_fields a b X Y HX HY E').
  - exfalso. destruct b as [| d b]; simpl in E.
    + subst Y. apply fieldEnd_head in HY. discriminate.
    + inversion E; subst. apply needsQuotes_cons in Hb.
      destruct Hb as [_ [Hd _]]. congruence.
  - exfalso. destruct a as [| c a]; simpl in E.
    + subst X. apply fieldEnd_head in HX. discriminate.
    + inversion E; subst. apply needsQuotes_cons in Ha.
      destruct Ha as [_ [Hc _]]. congruence.
  - apply (plain_fields a b X Y Ha Hb HX HY E).
Qed.

Lemma quoteField_string_inj (a b : string) :
  quoteField (MValue (VString a)) = quoteField (MValue (VString b)) -> a = b.
Proof.
  intros E.
  apply (field_prefix_unique a b EmptyString EmptyString);
    [left; reflexivity | left; reflexivity |].
  rewrite !append_nil_r. exact E.
Qed.

(** X16. [quoteField] tells any two strings apart, and writes a missing
    value, null and the empty string all as the empty text: two values
    have the same encoding exactly when they stand for the same text. *)
Theorem quoteField_injective :
  (forall a b : string,
      quoteField (MValue (VString a)) = quoteField (MValue (VString b)) ->
      a = b)
  /\ (forall v w : Member,
         quoteField v = quoteField w <-> fieldText v = fieldText w).
Proof.
  split; [exact quoteField_string_inj |].
  intros v w. rewrite (quoteField_text v), (quoteField_text w). split.
  - apply quoteField_string_inj.
  - intros ->. reflexivity.
Qed.

Lemma join_cons (sep x y : string) (l : list string) :
  join sep (x :: y :: l) = (x ++ (sep ++ join sep (y :: l)))%string.
Proof. reflexivity. Qed.

Lemma row_unique (fs1 : list string) :
  forall fs2 : list string,
    List.length fs1 = List.length fs2 ->
    join (str1 comma) (map (fun s => quoteField (MValue (VString s))) fs1)
    = join (str1 comma) (map (fun s => quoteField (MValue (VString s))) fs2) ->
    fs1 = fs2.
Proof.
  induction fs1 as [| a fs1 IH]; intros [| b fs2] Hlen E;
    try discriminate; [reflexivity |].
  injection Hlen as Hlen.
  destruct fs1 as [| a' fs1], fs2 as [| b' fs2]; try discriminate.
  - simpl in E. f_equal. apply quoteField_string_inj. exact E.
  - cbn [map] in E. rewrite !join_cons in E. simpl append in E.
    destruct (field_prefix_unique a b _ _
                ltac:(right; eexists; reflexivity)
                ltac:(right; eexists; reflexivity) E) as [-> E'].
    f_equal. inversion E' as [E'']. apply IH; [assumption | exact E''].
Qed.

Lemma encodeRow_texts (headers : list string) (row : Listing) :
  encodeRow headers row
  = join (str1 comma)
         (map (fun s => quoteField (MValue (VString s)))
              (map (fun header => fieldText (getMember row header)) headers)).
Proof.
  unfold encodeRow. rewrite map_map. f_equal.
  apply map_ext. intros k. apply quoteField_text.
Qed.

(** X17. The lines [convertToCSV] writes after the header line are
    unambiguous: two records have the same line, under the same headers,
    exactly when each header has the same text in both. *)
Theorem exported_line_determines_fields :
  (forall (first : Listing) (others : list Listing),
      convertToCSV (first :: others)
      = join (str1 newline)
             (join (str1 comma) (Object_keys first)
              :: map (encodeRow (Object_keys first)) (first :: others)))
  /\ (forall (headers : list string) (r1 r2 : Listing),
         encodeRow headers r1 = encodeRow headers r2
         <-> forall k, In k headers ->
                       fieldText (getMember r1 k) = fieldText (getMember r2 k)).
Proof.
  split; [reflexivity |].
  intros headers r1 r2. rewrite !encodeRow_texts. split.
  - intros E k Hk. apply row_unique in E; [| rewrite !length_map; reflexivity].
    assert (F : forall l : list string,
               map (fun header => fieldText (getMember r1 header)) l
               = map (fun header => fieldText (getMember r2 header)) l ->
               forall k, In k l ->
                         fieldText (getMember r1 k) = fieldText (getMember r2 k)).
    { induction l as [| x l IH]; simpl; intros Hl k' Hk'; [contradiction |].
      inversion Hl. destruct Hk' as [<- | Hk']; [assumption |].
      apply IH; assumption. }
    apply (F headers E k Hk).
  - intros H. f_equal. f_equal. apply map_ext_in. exact H.
Qed.

Lemma getData_perm (h : Handler) : Permutation (getData h) (data h).
Proof.
  rewrite getData_split. unfold getPinnedListings.
  apply Permutation_filter_split. apply isNotPinned_negb.
Qed.

Lemma append_not_empty (a : string) (c : ascii) (b : string) :
  (a ++ String c b)%string <> EmptyString.
Proof. destruct a; discriminate. Qed.

(** X18. The exported text is empty exactly when the working set is
    empty, whatever is pinned. *)
Theorem export_empty_iff :
  forall h : Handler,
    exportResults h = EmptyString <-> data h = [].
Proof.
  intros h. unfold exportResults.
  pose proof (getData_perm h) as Hp. split.
  - intros E. destruct (getData h) as [| first others] eqn:Hg.
    + apply Permutation_nil in Hp. exact Hp.
    + exfalso. unfold convertToCSV in E. cbn [map] in E.
      rewrite join_cons in E. simpl append in E.
      apply (append_not_empty _ _ _ E).
  - intros Hd. rewrite Hd in Hp. apply Permutation_sym, Permutation_nil in Hp.
    rewrite Hp. reflexivity.
Qed.

(** ** The filter prompt *)

Lemma trimEnd_empty (s : string) : trimEnd s = EmptyString -> blank s.
Proof.
  unfold blank. induction s as [| c s IH]; simpl; intros H; [constructor |].
  destruct (trimEnd s) as [| c' t]; [| discriminate].
  destruct (isWhiteSpace c) eqn:E; [| discriminate].
  constructor; [assumption | apply IH; reflexivity].
Qed.

Lemma trimStart_head (s : string) (c : ascii) (r : string) :
  trimStart s = String c r -> isWhiteSpace c = false.
Proof.
  induction s as [| x s IH]; simpl; [discriminate |].
  destruct (isWhiteSpace x) eqn:E; [exact IH |].
  intros H. inversion H; subst. exact E.
Qed.

Lemma trimStart_blank (s : string) : blank s -> trimStart s = EmptyString.
Proof.
  unfold blank. induction s as [| c s IH]; simpl; intros H; [reflexivity |].
  inversion H as [| ? ? Hc Hs]; subst. rewrite Hc. apply IH. assumption.
Qed.

(** An answer trims to the empty text exactly when it is white space. *)
Lemma trim_empty_iff (s : string) : trim s = EmptyString <-> blank s.
Proof.
  unfold trim. split.
  - intros H. destruct (trimStart s) as [| c r] eqn:E.
    + clear H. unfold blank. induction s as [| x s IH]; [constructor |].
      simpl in E. destruct (isWhiteSpace x) eqn:Ex; [| discriminate].
      constructor; [assumption | apply IH; assumption].
    + apply trimEnd_empty in H. unfold blank in H. simpl in H.
      inversion H as [| ? ? Hc _]; subst.
      rewrite (trimStart_head s c r E) in Hc. discriminate.
  - intros H. rewrite (trimStart_blank s H). reflexivity.
Qed.

Lemma StringToNumber_blank (s : string) : blank s -> StringToNumber s = zero.
Proof.
  intros H. unfold StringToNumber.
  rewrite (proj2 (trim_empty_iff s) H). reflexivity.
Qed.

Lemma blank_commaFree (s : string) : blank s -> commaFree s.
Proof.
  unfold blank, commaFree. intros H Hin.
  rewrite Forall_forall in H. specialize (H _ Hin). discriminate.
Qed.

Lemma split_not_nil (sep : ascii) (s : string) : split sep s <> [].
Proof.
  induction s as [| c s IH]; simpl; [discriminate |].
  destruct (split sep s); [contradiction |].
  destruct (Ascii.eqb c sep); discriminate.
Qed.

(** Joining the pieces of a split gives the text back, and no piece
    holds the separator. *)
Lemma join_split (sep : ascii) (s : string) :
  join (str1 sep) (split sep s) = s
  /\ Forall (fun piece => ~ In sep (list_ascii_of_string piece))
            (split sep s).
Proof.
  induction s as [| c s [IHj IHf]]; simpl.
  - split; [reflexivity | constructor; [intros [] | constructor]].
  - pose proof (split_not_nil sep s) as Hn.
    destruct (split sep s) as [| piece pieces]; [contradiction |].
    apply Forall_cons_iff in IHf. destruct IHf as [Hp Hps].
    destruct (Ascii.eqb_spec c sep) as [-> | Hc].
    + split.
      * change (join (str1 sep) (EmptyString :: piece :: pieces))
          with (String sep (join (str1 sep) (piece :: pieces))).
        rewrite IHj. reflexivity.
      * constructor; [intros [] |]. constructor; assumption.
    + split.
      * rewrite <- IHj. destruct pieces; reflexivity.
      * constructor; [| assumption]. simpl. intros [H | H]; auto.
Qed.

Lemma split_two (a b : string) :
  commaFree a -> commaFree b ->
  split comma (a ++ String comma b) = [a; b].
Proof.
  unfold commaFree. intros Ha Hb.
  assert (Hb' : split comma b = [b]).
  { clear Ha. induction b as [| c b IH]; simpl; [reflexivity |].
    rewrite IH by (intros H; apply Hb; right; exact H).
    destruct (Ascii.eqb_spec c comma) as [-> | Hc]; [| reflexivity].
    exfalso. apply Hb. left. reflexivity. }
  induction a as [| c a IH]; simpl.
  - rewrite Hb'. reflexivity.
  - rewrite IH by (intros H; apply Ha; right; exact H).
    destruct (Ascii.eqb_spec c comma) as [-> | Hc]; [| reflexivity].
    exfalso. apply Ha. left. reflexivity.
Qed.

Lemma not_blank_with_comma (a b : string) :
  trim (a ++ String comma b) <> EmptyString.
Proof.
  intros H. apply trim_empty_iff in H. unfold blank in H.
  rewrite Forall_forall in H.
  assert (Hin : In comma (list_ascii_of_string (a ++ String comma b))).
  { clear H. induction a as [| c a IH]; simpl; [left; reflexivity |].
    right. exact IH. }
  specialize (H _ Hin). discriminate.
Qed.

Lemma answeredPriceRange_two (a b : string) :
  commaFree a -> commaFree b ->
  answeredPriceRange (a ++ String comma b)
  = if negb (num_isNaN (StringToNumber a))
       && negb (num_isNaN (StringToNumber b))
    then Some (StringToNumber a, StringToNumber b)
    else None.
Proof.
  intros Ha Hb. unfold answeredPriceRange.
  destruct (String.eqb_spec (trim (a ++ String comma b)) EmptyString)
    as [E | _]; [exfalso; apply (not_blank_with_comma a b E) |].
  simpl negb. cbv iota. rewrite (split_two a b Ha Hb). reflexivity.
Qed.

(** X19. When the three answers are blank, [promptFilter] leaves the
    handler as it is and reports the size of the working set. *)
Theorem prompt_blank_answers :
  forall (priceInput roomsInput reviewInput : string) (h : Handler),
    blank priceInput -> blank roomsInput -> blank reviewInput ->
    promptFilter priceInput roomsInput reviewInput h
    = (h, List.length (data h)).
Proof.
  intros p r s h Hp Hr Hs. unfold promptFilter.
  assert (Hc : filter (promptCriteria p r s) h = h).
  { apply filter_unconstrained; unfold promptCriteria; simpl;
      unfold answeredPriceRange, answeredThreshold.
    - rewrite (proj2 (trim_empty_iff p) Hp). reflexivity.
    - rewrite (proj2 (trim_empty_iff r) Hr). reflexivity.
    - rewrite (proj2 (trim_empty_iff s) Hs). reflexivity. }
  rewrite Hc. f_equal. apply Permutation_length. apply getData_perm.
Qed.

Lemma prompt_blank_answers_witness :
  blank " " /\ blank EmptyString
  /\ promptFilter " " EmptyString EmptyString
                  (createHandler [listing_of_id "A"])
     = (createHandler [listing_of_id "A"], 1%nat).
Proof.
  assert (H1 : blank " ") by (repeat constructor).
  assert (H2 : blank EmptyString) by constructor.
  split; [exact H1 |]. split; [exact H2 |].
  exact (prompt_blank_answers " " EmptyString EmptyString
           (createHandler [listing_of_id "A"]) H1 H2 H2).
Defined.

(** X20. The number [promptFilter] reports is the size of the working
    set after the filter, pinned listings counted once, and is never
    more than the size before. *)
Theorem prompt_reports_size :
  forall (priceInput roomsInput reviewInput : string) (h : Handler),
    snd (promptFilter priceInput roomsInput reviewInput h)
    = List.length
        (data (fst (promptFilter priceInput roomsInput reviewInput h)))
    /\ (snd (promptFilter priceInput roomsInput reviewInput h)
        <= List.length (data h))%nat.
Proof.
  intros p r s h. unfold promptFilter. simpl fst. simpl snd.
  rewrite (Permutation_length (getData_perm _)).
  split; [reflexivity | apply filter_length_le].
Qed.

(** X21. A price range reaches the filter only from an answer of two
    parts around one comma, both of which [Number] converts: the bounds
    are the two numbers, neither is NaN.  Any other answer gives no
    price range. *)
Theorem price_answer_parts :
  forall (priceInput : string) (lo hi : number),
    answeredPriceRange priceInput = Some (lo, hi) ->
    exists a b : string,
      priceInput = (a ++ String comma b)%string
      /\ commaFree a /\ commaFree b
      /\ lo = StringToNumber a /\ hi = StringToNumber b
      /\ num_isNaN lo = false /\ num_isNaN hi = false.
Proof.
  intros p lo hi. unfold answeredPriceRange.
  destruct (negb (String.eqb (trim p) EmptyString)); [| discriminate].
  destruct (join_split comma p) as [Hj Hf].
  destruct (split comma p) as [| a [| b [| c rest]]]; try discriminate.
  cbn [map].
  destruct (num_isNaN (StringToNumber a)) eqn:Ea; [discriminate |].
  destruct (num_isNaN (StringToNumber b)) eqn:Eb; [discriminate |].
  simpl. intros H. inversion H; subst.
  inversion Hf as [| ? ? Ha Hf']; subst.
  inversion Hf' as [| ? ? Hb _]; subst.
  exists a, b. repeat split; auto.
Qed.

Lemma price_answer_parts_witness :
  answeredPriceRange "100,250" = Some (num_of_Z 100, num_of_Z 250)
  /\ exists a b : string,
      "100,250"%string = (a ++ String comma b)%string
      /\ commaFree a /\ commaFree b
      /\ num_of_Z 100 = StringToNumber a /\ num_of_Z 250 = StringToNumber b
      /\ num_isNaN (num_of_Z 100) = false
      /\ num_isNaN (num_of_Z 250) = false.
Proof.
  assert (H : answeredPriceRange "100,250"
              = Some (num_of_Z 100, num_of_Z 250))
    by (vm_compute; reflexivity).
  split; [exact H |].
  exact (price_answer_parts "100,250" (num_of_Z 100) (num_of_Z 250) H).
Defined.

(** X22. A blank side of a price answer is read as 0.  With a minimum
    above 0 and a blank maximum, as in the answer 100 followed by a
    comma, the filter leaves no listing. *)
Theorem price_answer_blank_maximum :
  forall (a b roomsInput reviewInput : string) (h : Handler),
    commaFree a ->
    blank b ->
    num_isNaN (StringToNumber a) = false ->
    num_le (StringToNumber a) zero = false ->
    answeredPriceRange (a ++ String comma b)
    = Some (StringToNumber a, zero)
    /\ promptFilter (a ++ String comma b) roomsInput reviewInput h
       = ({| data := [];
             pinnedIds := pinnedIds h;
             stats := stats h;
             hostRanking := hostRanking h |}, 0%nat).
Proof.
  intros a b r s h Ha Hb Hn Hle.
  assert (Hr : answeredPriceRange (a ++ String comma b)
               = Some (StringToNumber a, zero)).
  { rewrite (answeredPriceRange_two a b Ha (blank_commaFree b Hb)).
    rewrite (StringToNumber_blank b Hb), Hn. reflexivity. }
  split; [exact Hr |].
  unfold promptFilter.
  assert (Hd : List.filter (matches (promptCriteria (a ++ String comma b) r s))
                           (data h) = []).
  { apply filter_none. intros l _.
    apply (matches_empty_range _ (StringToNumber a) zero l);
      [exact Hr | exact Hle]. }
  unfold filter. rewrite Hd. f_equal.
  unfold getData. simpl. destruct (pinnedIds h); reflexivity.
Qed.

Lemma price_answer_blank_maximum_witness :
  commaFree "100" /\ blank " "
  /\ num_isNaN (StringToNumber "100") = false
  /\ num_le (StringToNumber "100") zero = false
  /\ promptFilter "100, " EmptyString EmptyString
                  (createHandler [listing_of_numbers "150" "2"])
     = (createHandler [], 0%nat).
Proof.
  assert (H1 : commaFree "100").
  { unfold commaFree. simpl. intros [H | [H | [H | []]]]; discriminate. }
  assert (H2 : blank " ") by (repeat constructor).
  split; [exact H1 |]. split; [exact H2 |].
  split; [reflexivity |]. split; [reflexivity |].
  exact (proj2 (price_answer_blank_maximum "100" " " EmptyString EmptyString
                  (createHandler [listing_of_numbers "150" "2"])
                  H1 H2 eq_refl eq_refl)).
Defined.

(** ** Ranking after a filter *)

Lemma RegularHosts_filter (f : Listing -> bool) (ws : list Listing) :
  RegularHosts ws -> RegularHosts (List.filter f ws).
Proof.
  unfold RegularHosts. rewrite !Forall_forall. intros H l Hl.
  apply filter_In in Hl. apply H. apply Hl.
Qed.

Lemma occurrences_filter (f : Listing -> bool) (k : string)
      (ws : list Listing) :
  (occurrences k (List.filter f ws) <= occurrences k ws)%nat.
Proof.
  unfold occurrences. induction ws as [| l ws IH]; simpl; [lia |].
  destruct (f l); simpl; destruct (String.eqb (hostKey l) k); simpl; lia.
Qed.

(** X23. Filtering never adds a host to the ranking and never raises a
    count: for a working set none of whose host keys names a property of
    [Object.prototype], every entry of the ranking computed after a
    [filter] has an entry for the same host, with a count at least as
    large, in the ranking computed before. *)
Theorem ranking_after_filter :
  forall (c : Criteria) (h : Handler) (e : HostEntry),
    RegularHosts (data h) ->
    In e (rankHosts (data (filter c h))) ->
    exists e',
      In e' (rankHosts (data h))
      /\ host e' = host e
      /\ (1 <= numCount e <= numCount e')%nat.
Proof.
  intros c h e Hreg He. simpl in He.
  pose proof (RegularHosts_filter (matches c) (data h) Hreg) as Hreg'.
  apply In_rankHosts in He.
  pose proof (regular_cells _ _ _ Hreg' He) as [Hc Hpos].
  assert (Hk : In (host e) (map hostKey (data h))).
  { apply occurrences_In.
    pose proof (occurrences_filter (matches c) (host e) (data h)). lia. }
  assert (Hr : inheritedKey (host e) = false).
  { apply in_map_iff in Hk. destruct Hk as [l [<- Hl]].
    unfold RegularHosts in Hreg. rewrite Forall_forall in Hreg.
    apply Hreg. assumption. }
  exists (mkHostEntry (host e) (CNum (occurrences (host e) (data h)))).
  split; [apply rankHosts_entry; assumption |].
  split; [reflexivity |].
  unfold numCount. rewrite Hc. simpl.
  pose proof (occurrences_filter (matches c) (host e) (data h)). lia.
Qed.

Lemma ranking_after_filter_witness :
  RegularHosts
    (data (createHandler [listing_of_numbers "100" "1";
                          listing_of_numbers "150" "3"]))
  /\ In (mkHostEntry "undefined" (CNum 1))
        (rankHosts
           (data (filter (roomsOnly (num_of_Z 2))
                         (createHandler [listing_of_numbers "100" "1";
                                         listing_of_numbers "150" "3"]))))
  /\ exists e',
      In e' (rankHosts
               (data (createHandler [listing_of_numbers "100" "1";
                                     listing_of_numbers "150" "3"])))
      /\ host e' = host (mkHostEntry "undefined" (CNum 1))
      /\ (1 <= numCount (mkHostEntry "undefined" (CNum 1))
          <= numCount e')%nat.
Proof.
  assert (H : RegularHosts
                (data (createHandler [listing_of_numbers "100" "1";
                                      listing_of_numbers "150" "3"])))
    by (repeat constructor).
  assert (H' : In (mkHostEntry "undefined" (CNum 1))
                  (rankHosts
                     (data (filter (roomsOnly (num_of_Z 2))
                                   (createHandler
                                      [listing_of_numbers "100" "1";
                                       listing_of_numbers "150" "3"])))))
    by (left; vm_compute; reflexivity).
  split; [exact H |]. split; [exact H' |].
  exact (ranking_after_filter (roomsOnly (num_of_Z 2))
           (createHandler [listing_of_numbers "100" "1";
                           listing_of_numbers "150" "3"])
           (mkHostEntry "undefined" (CNum 1)) H H').
Defined.
